(** * Ankh fluorescence regression notebook: data plumbing, verified

  A shallow embedding of [examples/regression_fluorosence_task.ipynb]:
  the Python values the notebook manipulates (strings, lists, integers
  used as slice bounds), its two helper functions [preprocess_dataset]
  and [embed_dataset], the [FluorescenceDataset] adapter and the
  [TrainingArguments] it builds.  The pretrained encoder, its tokenizer,
  scipy's [spearmanr] and the HuggingFace trainer are external
  collaborators: they enter as section variables, with the part of their
  contract a statement relies on spelled out as a hypothesis. *)

From Stdlib Require Import List ZArith Bool Lia String Ascii QArith.
Import ListNotations.

Local Open Scope Z_scope.

(** ** Python values and exceptions *)

Module Py.

(** Exceptions the notebook's own code can raise. *)
Inductive exn : Type :=
| ValueError   (* max() of an empty sequence *)
| IndexError.  (* subscript out of range *)

Inductive result (A : Type) : Type :=
| Ok (a : A)
| Raise (e : exn).
Arguments Ok {A} a.
Arguments Raise {A} e.

Definition bind {A B} (r : result A) (k : A -> result B) : result B :=
  match r with
  | Ok a => k a
  | Raise e => Raise e
  end.

(** [len] of a list, as a Python integer. *)
Definition len {A} (l : list A) : Z := Z.of_nat (List.length l).

(** A slice bound given explicitly is adjusted as CPython does for a
    step of one: a negative bound counts from the end and is clamped at
    zero, a non-negative one is clamped at the length. *)
Definition adjust_index (n i : Z) : Z :=
  if i <? 0 then Z.max 0 (i + n) else Z.min i n.

(** [l[lo:hi]]; [None] stands for an omitted bound. *)
Definition slice {A} (l : list A) (lo hi : option Z) : list A :=
  let n := len l in
  let start := match lo with None => 0 | Some i => adjust_index n i end in
  let stop := match hi with None => n | Some i => adjust_index n i end in
  firstn (Z.to_nat (stop - start)) (skipn (Z.to_nat start) l).

(** [l[i]] on a list: negative subscripts count from the end, anything
    outside the list raises [IndexError]. *)
Definition getitem {A} (l : list A) (i : Z) : result A :=
  let j := if i <? 0 then i + len l else i in
  if j <? 0 then Raise IndexError
  else match nth_error l (Z.to_nat j) with
       | Some x => Ok x
       | None => Raise IndexError
       end.

(** [max(l, key=key)]: the first element whose key is maximal;
    [ValueError] on an empty list. *)
Fixpoint max_from {A} (key : A -> Z) (best : A) (l : list A) : A :=
  match l with
  | [] => best
  | x :: rest => max_from key (if key best <? key x then x else best) rest
  end.

Definition max_by {A} (key : A -> Z) (l : list A) : result A :=
  match l with
  | [] => Raise ValueError
  | x :: rest => Ok (max_from key x rest)
  end.

(** A protein sequence as the notebook holds it: the [str] read from the
    dataset, or, once [preprocess_dataset] has run, a list of strings.
    Python has no character type: a character is a string of length one. *)
Inductive seq : Type :=
| Str (s : string)
| Lst (l : list string).

Definition chars (s : string) : list string :=
  map (fun c => String c EmptyString) (list_ascii_of_string s).

(** [len(x)] *)
Definition seq_len (x : seq) : Z :=
  match x with
  | Str s => len (list_ascii_of_string s)
  | Lst l => len l
  end.

(** [x[:hi]] keeps the type of [x]. *)
Definition seq_prefix (x : seq) (hi : Z) : seq :=
  match x with
  | Str s => Str (string_of_list_ascii (slice (list_ascii_of_string s) None (Some hi)))
  | Lst l => Lst (slice l None (Some hi))
  end.

(** [list(x)]: the characters of a [str], the elements of a list. *)
Definition to_list (x : seq) : list string :=
  match x with
  | Str s => chars s
  | Lst l => l
  end.

End Py.

Import Py.

Notation "x <- c ;; k" := (Py.bind c (fun x => k))
(at level 61, c at next level, right associativity).

(** ** A small stand-in for the pretrained model

    Used to run the notebook's code on concrete inputs: a tokenizer that
    maps every word of a sample to one id and closes the sample with the
    end-of-sequence id, padding a batch to its longest member, and an
    encoder that returns one row per id. *)

Module Demo.

Definition eos_id : nat := 1%nat.
Definition pad_id : nat := 0%nat.

Definition encode (sample : seq) : list nat :=
  map (fun w => (String.length w + 2)%nat) (to_list sample) ++ [eos_id].

Definition pad_to (n : nat) (ids : list nat) : list nat :=
  ids ++ repeat pad_id (n - List.length ids).

Definition batch_encode_plus (batch : list seq) : list (list nat) :=
  let encoded := map encode batch in
  let longest := fold_right (fun ids m => Nat.max (List.length ids) m) 0%nat encoded in
  map (pad_to longest) encoded.

Definition forward (weights : nat) (training : bool) (input_ids : list (list nat))
  : list (list (list nat)) :=
  map (map (fun id => [id; (id + weights)%nat])) input_ids.

(** A residue symbol is a string of length one. *)
Definition residue (w : string) : Prop := String.length w = 1%nat.

(** Two parameter tensors: a matrix and a scalar. *)
Definition parameter_shapes (weights : nat) : list (list Z) :=
  [[Z.of_nat weights; 2]; []].

End Demo.

(** ** The notebook *)

Section Notebook.

(** *** Preprocessing *)

(** A label is a Python float ([log_fluorescence]); the tensors built from
    labels hold single-precision numbers.  [to_float32] is the rounding
    [torch.tensor(x, dtype=torch.float32)] performs. *)
Context {float64 float32 : Type}.
Variable to_float32 : float64 -> float32.

Local Abbreviation label := float64 (only parsing).

(** The bound used when [max_length is None]: the length of the longest
    element of the global [training_sequences], read when the call is
    made. *)
Definition default_max_length (training_sequences : list seq) : result Z :=
  longest <- max_by seq_len training_sequences ;;
  Ok (seq_len longest).

(** The largest [len] over a list, zero for the empty list: what the
    default bound is compared with below. *)
Definition longest_len (l : list seq) : Z :=
  fold_right (fun s m => Z.max (seq_len s) m) 0 l.

(** [list(seq[:max_length])] *)
Definition truncate (s : seq) (max_length : Z) : list string :=
  to_list (seq_prefix s max_length).

(** [preprocess_dataset(sequences, labels, max_length=None)].  The first
    argument is the global [training_sequences] the body reads. *)
Definition preprocess_dataset (training_sequences : list seq)
    (sequences : list seq) (labels : list label) (max_length : option Z)
  : result (list (list string) * list label) :=
  max_length <- match max_length with
                | None => default_max_length training_sequences
                | Some L => Ok L
                end ;;
  let splitted_sequences := map (fun s => truncate s max_length) sequences in
  Ok (splitted_sequences, labels).


(** *** The torch runtime the notebook drives *)

Inductive device : Type := cpu | cuda0.

(** [torch.device('cuda:0' if torch.cuda.is_available() else 'cpu')] *)
Definition select_device (cuda_is_available : bool) : device :=
  if cuda_is_available then cuda0 else cpu.

(** Token ids, rows of the encoder's last hidden state, and the encoder's
    parameters: all three belong to the pretrained model. *)
Context {token row params : Type}.

(** [tokenizer.batch_encode_plus(batch, add_special_tokens=True,
    padding=True, is_split_into_words=True, return_tensors="pt")['input_ids']]:
    one list of ids per element of the batch. *)
Variable batch_encode_plus : list seq -> list (list token).

(** [model(input_ids=ids)[0]]: the last hidden state, one matrix (a list
    of rows) per element of the batch.  It reads the parameters and the
    train/eval flag of the module. *)
Variable forward : params -> bool -> list (list token) -> list (list row).

(** An [nn.Module] as far as the notebook touches it. *)
Record module : Type := Module_ {
  parameters : params;
  training : bool;
  on_device : device
}.

(** [model.eval()] *)
Definition eval (m : module) : module :=
  {| parameters := parameters m; training := false; on_device := on_device m |}.

(** [model.to(device=device)] *)
Definition to (m : module) (d : device) : module :=
  {| parameters := parameters m; training := training m; on_device := d |}.

(** One call of the model, as seen from outside: the batch it was given
    and the two modes in force when it ran. *)
Record forward_call : Type := ForwardCall {
  call_input_ids : list (list token);
  call_training : bool;
  call_grad_enabled : bool
}.

(** The state the embedding code runs in: the global [model], autograd's
    global switch, and the history of forward passes (kept for the
    statements below; the notebook itself has no such log). *)
Record torch_state : Type := TorchState {
  model : module;
  grad_enabled : bool;
  forward_calls : list forward_call
}.

(** Computations that read and write the torch state and may raise. *)
Definition torch (A : Type) : Type := torch_state -> result (A * torch_state).

Definition ret {A} (a : A) : torch A := fun st => Ok (a, st).

Definition bind_torch {A B} (c : torch A) (k : A -> torch B) : torch B :=
  fun st => match c st with
            | Ok (a, st') => k a st'
            | Raise e => Raise e
            end.

Definition lift {A} (r : result A) : torch A :=
  fun st => match r with
            | Ok a => Ok (a, st)
            | Raise e => Raise e
            end.

(** [model(input_ids=ids)[0]] *)
Definition call_model (input_ids : list (list token)) : torch (list (list row)) :=
  fun st =>
    let m := model st in
    let entry := {| call_input_ids := input_ids;
                    call_training := training m;
                    call_grad_enabled := grad_enabled st |} in
    Ok (forward (parameters m) (training m) input_ids,
        {| model := m;
           grad_enabled := grad_enabled st;
           forward_calls := forward_calls st ++ [entry] |}).

(** [with torch.no_grad(): body]: gradients are switched off for the body
    and the previous mode is put back afterwards. *)
Definition no_grad {A} (body : torch A) : torch A :=
  fun st =>
    let prev := grad_enabled st in
    match body {| model := model st; grad_enabled := false;
                  forward_calls := forward_calls st |} with
    | Ok (a, st') =>
        Ok (a, {| model := model st'; grad_enabled := prev;
                  forward_calls := forward_calls st' |})
    | Raise e => Raise e
    end.

(** The body of the [for sample in tqdm(sequences)] loop; its value is the
    array appended to [inputs_embedding]. *)
Definition embed_sample (shift_left shift_right : Z) (sample : seq)
  : torch (list row) :=
  let ids := batch_encode_plus [sample] in
  bind_torch (call_model ids) (fun output =>
  bind_torch (lift (getitem output 0)) (fun embedding =>
  ret (slice embedding (Some shift_left) (Some shift_right)))).

(** A [for] loop that appends one value per element to an accumulator. *)
Fixpoint for_append {A B} (body : A -> torch B) (l : list A) (acc : list B)
  : torch (list B) :=
  match l with
  | [] => ret acc
  | x :: rest =>
      bind_torch (body x) (fun b => for_append body rest (acc ++ [b]))
  end.

(** [embed_dataset(model, sequences, shift_left=0, shift_right=-1)]; the
    [model] argument is the module held in the state. *)
Definition embed_dataset (sequences : list seq) (shift_left shift_right : Z)
  : torch (list (list row)) :=
  let inputs_embedding := [] in
  no_grad (for_append (embed_sample shift_left shift_right) sequences
                      inputs_embedding).

(** What the code relies on from its two collaborators.  The tokenizer
    returns one list of ids per member of the batch, the encoder one
    matrix per member with one row per id, and, on a sample made of residue
    symbols, the tokenizer called with [add_special_tokens=True] emits one
    id per symbol followed by a single end-of-sequence id. *)
Definition tokenizer_keeps_batch : Prop :=
  forall batch, List.length (batch_encode_plus batch) = List.length batch.

Definition encoder_keeps_shape : Prop :=
  forall p t input_ids,
    map (@List.length row) (forward p t input_ids)
    = map (@List.length token) input_ids.

Definition tokenizer_appends_eos (residue : string -> Prop) : Prop :=
  forall ws ids,
    Forall residue ws ->
    In ids (batch_encode_plus [Lst ws]) ->
    List.length ids = S (List.length ws).

(** The array [embed_dataset] stores for one sample, and the record of the
    forward pass that produced it. *)
Definition embedding_of (m : module) (shift_left shift_right : Z) (sample : seq)
  : list row :=
  slice (hd [] (forward (parameters m) (training m) (batch_encode_plus [sample])))
        (Some shift_left) (Some shift_right).

Definition call_of (m : module) (grad : bool) (sample : seq) : forward_call :=
  {| call_input_ids := batch_encode_plus [sample];
     call_training := training m;
     call_grad_enabled := grad |}.

(** The cell that loads the model: [model.eval()] then
    [model.to(device=device)]. *)
Definition load_model_cell (dev : device) (st : torch_state) : torch_state :=
  {| model := to (eval (model st)) dev;
     grad_enabled := grad_enabled st;
     forward_calls := forward_calls st |}.

(** *** The cells that load, preprocess and embed the three splits *)

(** A row of the [proteinea/Fluorosence] dataset. *)
Record example : Type := Example_ {
  primary : string;
  log_fluorescence : label
}.

(** [load_dataset("proteinea/Fluorosence")] *)
Record dataset_dict : Type := DatasetDict {
  train : list example;
  validation : list example;
  test : list example
}.

(** The notebook's global variables holding sequences and labels. *)
Record globals : Type := Globals {
  training_sequences : list seq;
  training_labels : list label;
  validation_sequences : list seq;
  validation_labels : list label;
  test_sequences : list seq;
  test_labels : list label
}.

(** [dataset[split]['primary'], dataset[split]['log_fluorescence']] for the
    three splits. *)
Definition load_splits (dataset : dataset_dict) : globals :=
  {| training_sequences := map (fun r => Str (primary r)) (train dataset);
     training_labels := map log_fluorescence (train dataset);
     validation_sequences := map (fun r => Str (primary r)) (validation dataset);
     validation_labels := map log_fluorescence (validation dataset);
     test_sequences := map (fun r => Str (primary r)) (test dataset);
     test_labels := map log_fluorescence (test dataset) |}.

(** The three assignments of the preprocessing cell, in order.  Each call
    reads [training_sequences] as it is bound at that moment: the first
    assignment rebinds it before the second and third calls run. *)
Definition preprocess_cell (g : globals) : result globals :=
  r1 <- preprocess_dataset (training_sequences g)
          (training_sequences g) (training_labels g) None ;;
  let g1 := {| training_sequences := map Lst (fst r1);
               training_labels := snd r1;
               validation_sequences := validation_sequences g;
               validation_labels := validation_labels g;
               test_sequences := test_sequences g;
               test_labels := test_labels g |} in
  r2 <- preprocess_dataset (training_sequences g1)
          (validation_sequences g1) (validation_labels g1) None ;;
  let g2 := {| training_sequences := training_sequences g1;
               training_labels := training_labels g1;
               validation_sequences := map Lst (fst r2);
               validation_labels := snd r2;
               test_sequences := test_sequences g1;
               test_labels := test_labels g1 |} in
  r3 <- preprocess_dataset (training_sequences g2)
          (test_sequences g2) (test_labels g2) None ;;
  Ok {| training_sequences := training_sequences g2;
        training_labels := training_labels g2;
        validation_sequences := validation_sequences g2;
        validation_labels := validation_labels g2;
        test_sequences := map Lst (fst r3);
        test_labels := snd r3 |}.

(** The embeddings of the three splits. *)
Record embeddings : Type := Embeddings {
  training_embeddings : list (list row);
  validation_embeddings : list (list row);
  test_embeddings : list (list row)
}.

(** The three assignments of the embedding cell; [shift_left] and
    [shift_right] take their defaults. *)
Definition embed_cell (g : globals) : torch embeddings :=
  bind_torch (embed_dataset (training_sequences g) 0 (-1)) (fun e1 =>
  bind_torch (embed_dataset (validation_sequences g) 0 (-1)) (fun e2 =>
  bind_torch (embed_dataset (test_sequences g) 0 (-1)) (fun e3 =>
  ret {| training_embeddings := e1;
         validation_embeddings := e2;
         test_embeddings := e3 |}))).

(** *** The dataset adapter *)

Inductive dtype : Type := torch_float32 | torch_float64 | torch_int64.

(** A tensor of single-precision numbers: its shape and its elements in
    row-major order. *)
Record tensor : Type := Tensor {
  tensor_dtype : dtype;
  shape : list Z;
  elements : list float32
}.

(** [torch.tensor(x, dtype=torch.float32)] for a Python float [x]: a tensor
    with no dimension. *)
Definition tensor_of_float (x : float64) : tensor :=
  {| tensor_dtype := torch_float32; shape := []; elements := [to_float32 x] |}.

(** [t.unsqueeze(dim)]: a dimension of size one is inserted at [dim], which
    ranges over [-(t.dim()+1) .. t.dim()]; negative values count from the
    end. *)
Definition unsqueeze (t : tensor) (dim : Z) : result tensor :=
  let r := len (shape t) in
  if (dim <? - (r + 1)) || (r <? dim) then Raise IndexError
  else
    let d := Z.to_nat (if dim <? 0 then dim + r + 1 else dim) in
    Ok {| tensor_dtype := tensor_dtype t;
          shape := firstn d (shape t) ++ 1 :: skipn d (shape t);
          elements := elements t |}.

Record FluorescenceDataset : Type := __init__ {
  sequences : list (list row);
  labels : list label
}.

(** The dictionary [__getitem__] returns.  [torch.tensor(sample)] copies the
    array it is given: [embed] carries the rows of the stored embedding. *)
Record item : Type := Item {
  item_embed : list row;
  item_labels : tensor
}.

(** A method receives the object and may rebind its attributes: it yields
    its value, or the exception it raised, together with the object as the
    call leaves it. *)
Definition method (A : Type) : Type :=
  FluorescenceDataset -> result A * FluorescenceDataset.

Definition __getitem__ (idx : Z) : method item :=
  fun self =>
    (sample <- getitem (sequences self) idx ;;
     label_ <- getitem (labels self) idx ;;
     labels_tensor <- unsqueeze (tensor_of_float label_) (-1) ;;
     Ok {| item_embed := sample; item_labels := labels_tensor |},
     self).

Definition __len__ : method Z :=
  fun self => (Ok (len (labels self)), self).

(** The cell that wraps the three splits. *)
Record datasets : Type := Datasets {
  training_dataset : FluorescenceDataset;
  validation_dataset : FluorescenceDataset;
  test_ds : FluorescenceDataset
}.

Definition dataset_cell (g : globals) (e : embeddings) : datasets :=
  {| training_dataset := __init__ (training_embeddings e) (training_labels g);
     validation_dataset := __init__ (validation_embeddings e) (validation_labels g);
     test_ds := __init__ (test_embeddings e) (test_labels g) |}.

(** *** Metrics and the trainer's configuration *)

(** [transformers.EvalPrediction], as far as [compute_metrics] reads it. *)
Record EvalPrediction : Type := EvalPrediction_ {
  predictions : list float32;
  label_ids : list float32
}.

(** [stats.spearmanr(a, b).correlation], scipy's. *)
Variable spearmanr : list float32 -> list float32 -> float64.

(** The dictionary is a one-entry association list. *)
Definition compute_metrics (p : EvalPrediction) : list (string * float64) :=
  [("spearmanr"%string, spearmanr (label_ids p) (predictions p))].

Definition seed : Z := 7.
Definition model_type : string := "ankh_large".
Definition experiment : string := "flu_" ++ model_type.

(** The keyword arguments the notebook passes to [TrainingArguments];
    decimal literals are kept as the rationals they denote. *)
Record TrainingArguments : Type := TrainingArguments_ {
  output_dir : string;
  num_train_epochs : Z;
  per_device_train_batch_size : Z;
  per_device_eval_batch_size : Z;
  warmup_steps : Z;
  learning_rate : Q;
  weight_decay : Q;
  logging_dir : string;
  logging_steps : Z;
  do_train : bool;
  do_eval : bool;
  evaluation_strategy : string;
  gradient_accumulation_steps : Z;
  fp16 : bool;
  fp16_opt_level : string;
  run_name : string;
  args_seed : Z;
  load_best_model_at_end : bool;
  metric_for_best_model : string;
  greater_is_better : bool;
  save_strategy : string
}.

Definition training_args : TrainingArguments :=
  {| output_dir := "./results_" ++ experiment;
     num_train_epochs := 5;
     per_device_train_batch_size := 1;
     per_device_eval_batch_size := 1;
     warmup_steps := 1000;
     learning_rate := 1 # 1000;
     weight_decay := 0;
     logging_dir := "./logs_" ++ experiment;
     logging_steps := 200;
     do_train := true;
     do_eval := true;
     evaluation_strategy := "epoch";
     gradient_accumulation_steps := 16;
     fp16 := false;
     fp16_opt_level := "02";
     run_name := experiment;
     args_seed := seed;
     load_best_model_at_end := true;
     metric_for_best_model := "eval_spearmanr";
     greater_is_better := true;
     save_strategy := "epoch" |}.

Definition model_embed_dim : Z := 1536.

(** The arguments of [Trainer(...)] that the notebook's own code decides;
    [model_init] builds the external regression head and is left out. *)
Record Trainer : Type := Trainer_ {
  args : TrainingArguments;
  train_dataset : FluorescenceDataset;
  eval_dataset : FluorescenceDataset;
  trainer_compute_metrics : EvalPrediction -> list (string * float64)
}.

Definition trainer (d : datasets) : Trainer :=
  {| args := training_args;
     train_dataset := training_dataset d;
     eval_dataset := validation_dataset d;
     trainer_compute_metrics := compute_metrics |}.

(** The trainer reports each evaluation metric under its name prefixed by
    ["eval_"] (the default [metric_key_prefix] of [Trainer.evaluate]). *)
Definition eval_key (name : string) : string := "eval_" ++ name.

(** A sample is answered when the encoder, run on the batch holding it
    alone, returns at least one matrix; [embedding[0]] needs that. *)
Definition answered (m : module) (sample : seq) : Prop :=
  forward (parameters m) (training m) (batch_encode_plus [sample]) <> [].

Definition unanswered (m : module) (sample : seq) : Prop :=
  forward (parameters m) (training m) (batch_encode_plus [sample]) = [].

(** *** The remaining cells *)

(** The shapes of the tensors [model.parameters()] yields, in order. *)
Variable parameter_shapes : params -> list (list Z).

(** [p.numel()]: the number of elements of a tensor of the given shape. *)
Definition numel (shape : list Z) : Z := fold_right Z.mul 1 shape.

(** [get_num_params(model)]: [sum] starts from zero and adds from the
    left. *)
Definition get_num_params (m : module) : Z :=
  fold_left Z.add (map numel (parameter_shapes (parameters m))) 0.

(** The cells from loading the model to wrapping the splits, in the order
    of the notebook: device selection, [model.eval()] and [model.to], the
    three columns of each split, preprocessing, embedding extraction and
    the three adapters. *)
Definition notebook_datasets (cuda_is_available : bool)
    (dataset : dataset_dict) : torch datasets :=
  fun st =>
    let device_ := select_device cuda_is_available in
    let st := load_model_cell device_ st in
    bind_torch (lift (preprocess_cell (load_splits dataset))) (fun g =>
    bind_torch (embed_cell g) (fun e =>
    ret (dataset_cell g e))) st.


(** ** Properties of the Python primitives *)

Lemma len_nonneg {A} (l : list A) : 0 <= len l.
Proof. unfold len. lia. Qed.

Lemma adjust_index_range (n i : Z) :
  0 <= n -> 0 <= adjust_index n i <= n.
Proof.
  intros Hn. unfold adjust_index.
  destruct (Z.ltb_spec i 0); lia.
Qed.

Lemma adjust_index_nonneg (n i : Z) :
  0 <= i -> adjust_index n i = Z.min n i.
Proof.
  intros Hi. unfold adjust_index.
  destruct (Z.ltb_spec i 0); lia.
Qed.

(** A slice with no lower bound is a prefix. *)
Lemma slice_prefix {A} (l : list A) (hi : Z) :
  slice l None (Some hi) = firstn (Z.to_nat (adjust_index (len l) hi)) l.
Proof.
  unfold slice. cbn [skipn Z.to_nat]. now rewrite Z.sub_0_r.
Qed.

Lemma len_slice_prefix {A} (l : list A) (hi : Z) :
  len (slice l None (Some hi)) = adjust_index (len l) hi.
Proof.
  rewrite slice_prefix. unfold len at 1. rewrite length_firstn.
  pose proof (adjust_index_range (len l) hi (len_nonneg l)) as Hr.
  unfold len in *. lia.
Qed.

Lemma slice_prefix_all {A} (l : list A) (hi : Z) :
  len l <= hi -> slice l None (Some hi) = l.
Proof.
  intros Hle. rewrite slice_prefix. apply firstn_all2.
  pose proof (len_nonneg l).
  rewrite adjust_index_nonneg by lia. unfold len in *. lia.
Qed.

Lemma Forall_prefix {A} (P : A -> Prop) (n : nat) (l : list A) :
  Forall P l -> Forall P (firstn n l).
Proof.
  intros Hall. rewrite <- (firstn_skipn n l) in Hall.
  now apply Forall_app in Hall.
Qed.

Lemma Forall_slice_prefix {A} (P : A -> Prop) (l : list A) (hi : Z) :
  Forall P l -> Forall P (slice l None (Some hi)).
Proof. intros Hall. rewrite slice_prefix. now apply Forall_prefix. Qed.

Lemma len_chars (s : string) : len (chars s) = seq_len (Str s).
Proof. unfold chars, len. cbn [seq_len]. unfold len. now rewrite length_map. Qed.

Lemma chars_single (s : string) :
  Forall (fun c => String.length c = 1%nat) (chars s).
Proof.
  unfold chars. apply Forall_forall. intros c Hc.
  apply in_map_iff in Hc. destruct Hc as [a [<- _]]. reflexivity.
Qed.

Lemma seq_len_nonneg (s : seq) : 0 <= seq_len s.
Proof. destruct s; cbn [seq_len]; apply len_nonneg. Qed.

(** ** Truncation *)

(** On a [str], truncating and then splitting is splitting and then
    truncating. *)
Lemma truncate_Str (s : string) (L : Z) :
  truncate (Str s) L = slice (chars s) None (Some L).
Proof.
  unfold truncate. cbn [seq_prefix to_list].
  rewrite !slice_prefix. unfold chars.
  rewrite list_ascii_of_string_of_list_ascii, firstn_map.
  unfold len. now rewrite length_map.
Qed.

Lemma truncate_Lst (l : list string) (L : Z) :
  truncate (Lst l) L = slice l None (Some L).
Proof. reflexivity. Qed.

(** What the slice keeps, for any integer bound. *)
Lemma len_truncate (s : seq) (L : Z) :
  len (truncate s L) = adjust_index (seq_len s) L.
Proof.
  destruct s as [s | l].
  - rewrite truncate_Str, len_slice_prefix. now rewrite len_chars.
  - rewrite truncate_Lst, len_slice_prefix. reflexivity.
Qed.

(** X18: a negative bound counts from the end of the sequence: the slice
    keeps [max(0, len(seq) + L)] elements. *)
Lemma negative_bound_counts_from_end (s : seq) (L : Z) :
  L < 0 -> len (truncate s L) = Z.max 0 (seq_len s + L).
Proof.
  intros HL. rewrite len_truncate. unfold adjust_index.
  destruct (Z.ltb_spec L 0); lia.
Qed.

Lemma truncate_all (s : seq) (L : Z) :
  seq_len s <= L -> truncate s L = to_list s.
Proof.
  intros Hle. destruct s as [s | l].
  - rewrite truncate_Str. cbn [to_list]. apply slice_prefix_all.
    now rewrite len_chars.
  - rewrite truncate_Lst. cbn [to_list]. now apply slice_prefix_all.
Qed.

Lemma to_list_len (s : seq) : len (to_list s) = seq_len s.
Proof. destruct s; [apply len_chars | reflexivity]. Qed.

Lemma preprocess_dataset_explicit (training : list seq) (seqs : list seq)
    (labs : list label) (L : Z) :
  preprocess_dataset training seqs labs (Some L)
  = Ok (map (fun s => truncate s L) seqs, labs).
Proof. reflexivity. Qed.

(** C1 (amended): for every sequence and every maximum length [L >= 0],
    the preprocessor's truncation yields a list whose length is
    [min(len(s), L)]; [preprocess_dataset] with that explicit [max_length]
    returns exactly those lists, one per input sequence. *)
Theorem truncation_length (training seqs : list seq) (labs : list label) (L : Z) :
  0 <= L ->
  (forall s, len (truncate s L) = Z.min (seq_len s) L) /\
  exists out,
    preprocess_dataset training seqs labs (Some L) = Ok (out, labs) /\
    map len out = map (fun s => Z.min (seq_len s) L) seqs.
Proof.
  intros HL.
  assert (Hone : forall s, len (truncate s L) = Z.min (seq_len s) L).
  { intros s. rewrite len_truncate. now apply adjust_index_nonneg. }
  split; [exact Hone |].
  exists (map (fun s => truncate s L) seqs). split.
  - apply preprocess_dataset_explicit.
  - rewrite map_map. apply map_ext. intros s. apply Hone.
Qed.

(** C4 (amended): for every input [str] and every [max_length],
    [preprocess_dataset] returns one list per sequence, each a list of
    single characters and a prefix of the sequence's characters; a
    sequence longer than a non-negative [max_length] is cut to its first
    [max_length] characters, and a sequence no longer than [max_length] is
    returned whole, with nothing appended. *)
Theorem preprocess_truncates_without_padding (training : list seq)
    (strs : list string) (labs : list label) (L : Z) :
  preprocess_dataset training (map Str strs) labs (Some L)
  = Ok (map (fun s => truncate (Str s) L) strs, labs) /\
  forall s : string,
    Forall (fun c => String.length c = 1%nat) (truncate (Str s) L) /\
    (exists k, truncate (Str s) L = firstn k (chars s)) /\
    (0 <= L < seq_len (Str s) ->
       truncate (Str s) L = firstn (Z.to_nat L) (chars s) /\
       len (truncate (Str s) L) = L) /\
    (seq_len (Str s) <= L -> truncate (Str s) L = chars s).
Proof.
  split.
  - rewrite preprocess_dataset_explicit, map_map. reflexivity.
  - intros s. split; [| split; [| split]].
    + rewrite truncate_Str. apply Forall_slice_prefix, chars_single.
    + rewrite truncate_Str, slice_prefix. eexists. reflexivity.
    + intros [H0 Hlt]. split.
      * rewrite truncate_Str, slice_prefix, len_chars.
        rewrite adjust_index_nonneg by assumption.
        now rewrite Z.min_r by lia.
      * rewrite len_truncate, adjust_index_nonneg by assumption. lia.
    + intros Hle. now apply (truncate_all (Str s)).
Qed.

(** ** The default bound *)

Lemma max_from_key {A} (key : A -> Z) (l : list A) (best : A) :
  key (max_from key best l) = fold_right (fun x m => Z.max (key x) m) (key best) l.
Proof.
  revert best. induction l as [| x rest IH]; intros best; cbn [max_from fold_right].
  - reflexivity.
  - rewrite IH. destruct (Z.ltb_spec (key best) (key x)) as [Hlt | Hge].
    + clear IH. induction rest as [| y r IHr]; cbn [fold_right]; lia.
    + clear IH. induction rest as [| y r IHr]; cbn [fold_right]; lia.
Qed.

Lemma fold_max_start (l : list seq) (a : Z) :
  0 <= a ->
  fold_right (fun s m => Z.max (seq_len s) m) a l = Z.max a (longest_len l).
Proof.
  intros Ha. unfold longest_len.
  induction l as [| x rest IH]; cbn [fold_right]; [lia |].
  rewrite IH. lia.
Qed.

Lemma longest_len_nonneg (l : list seq) : 0 <= longest_len l.
Proof.
  unfold longest_len. induction l as [| x r IH]; cbn [fold_right]; lia.
Qed.

(** With a non-empty [training_sequences] the default bound exists and is
    the largest length. *)
Lemma default_max_length_value (x : seq) (rest : list seq) :
  default_max_length (x :: rest) = Ok (longest_len (x :: rest)).
Proof.
  unfold default_max_length, max_by. cbn [bind].
  rewrite max_from_key, fold_max_start by apply seq_len_nonneg.
  unfold longest_len. cbn [fold_right]. fold (longest_len rest). reflexivity.
Qed.

Lemma default_max_length_empty : default_max_length [] = Raise ValueError.
Proof. reflexivity. Qed.

Lemma longest_len_upper (l : list seq) :
  Forall (fun s => seq_len s <= longest_len l) l.
Proof.
  induction l as [| x r IH]; constructor.
  - unfold longest_len. cbn [fold_right]. lia.
  - eapply Forall_impl; [| exact IH]. cbn beta. intros s Hs.
    unfold longest_len in *. cbn [fold_right]. lia.
Qed.

Lemma longest_len_attained (x : seq) (rest : list seq) :
  Exists (fun s => seq_len s = longest_len (x :: rest)) (x :: rest).
Proof.
  revert x. induction rest as [| y r IH]; intros x.
  - left. unfold longest_len. cbn [fold_right]. pose proof (seq_len_nonneg x). lia.
  - destruct (Z_le_gt_dec (longest_len (y :: r)) (seq_len x)) as [Hle | Hgt].
    + left. unfold longest_len in *. cbn [fold_right] in *. lia.
    + right. specialize (IH y).
      eapply Exists_impl; [| exact IH]. cbn beta. intros s Hs.
      rewrite Hs. unfold longest_len in *. cbn [fold_right] in *. lia.
Qed.

(** The longest length depends on the lengths only. *)
Lemma longest_len_ext (l l' : list seq) :
  map seq_len l = map seq_len l' -> longest_len l = longest_len l'.
Proof.
  revert l'. induction l as [| x r IH]; intros [| x' r'] Heq;
    cbn [map] in Heq; try discriminate; [reflexivity |].
  injection Heq as Hx Hr. unfold longest_len. cbn [fold_right].
  fold (longest_len r) (longest_len r'). rewrite Hx, (IH _ Hr). reflexivity.
Qed.

(** Truncating a split to a bound none of its members exceeds keeps every
    length. *)
Lemma truncate_keeps_lengths (l : list seq) (B : Z) :
  Forall (fun s => seq_len s <= B) l ->
  map seq_len (map Lst (map (fun s => truncate s B) l)) = map seq_len l.
Proof.
  intros Hall. rewrite !map_map. apply map_ext_in. intros s Hin.
  rewrite Forall_forall in Hall. cbn [seq_len].
  rewrite truncate_all by now apply Hall. apply to_list_len.
Qed.

Lemma default_max_length_nonempty (l : list seq) :
  l <> [] -> default_max_length l = Ok (longest_len l).
Proof.
  destruct l as [| x rest]; [congruence | intros _].
  apply default_max_length_value.
Qed.

Lemma preprocess_dataset_default (training seqs : list seq) (labs : list label) :
  training <> [] ->
  preprocess_dataset training seqs labs None
  = Ok (map (fun s => truncate s (longest_len training)) seqs, labs).
Proof.
  intros Hne. unfold preprocess_dataset.
  rewrite (default_max_length_nonempty _ Hne). reflexivity.
Qed.

Lemma preprocess_dataset_default_empty (seqs : list seq) (labs : list label) :
  preprocess_dataset [] seqs labs None = Raise ValueError.
Proof. reflexivity. Qed.

(** After the first assignment of the preprocessing cell the global
    [training_sequences] holds lists, of the lengths the strings had. *)
Lemma rebound_training_lengths (l : list seq) :
  map seq_len (map Lst (map (fun s => truncate s (longest_len l)) l))
  = map seq_len l.
Proof. apply truncate_keeps_lengths, longest_len_upper. Qed.

(** The preprocessing cell in closed form: every split is truncated to the
    longest length found in the original training split. *)
Lemma preprocess_cell_run (g : globals) :
  training_sequences g <> [] ->
  let B := longest_len (training_sequences g) in
  let cut := map (fun s => Lst (truncate s B)) in
  preprocess_cell g
  = Ok {| training_sequences := cut (training_sequences g);
          training_labels := training_labels g;
          validation_sequences := cut (validation_sequences g);
          validation_labels := validation_labels g;
          test_sequences := cut (test_sequences g);
          test_labels := test_labels g |}.
Proof.
  intros Hne B cut.
  destruct g as [ts tl vs vl es el]. cbn [training_sequences] in *.
  pose proof (rebound_training_lengths ts) as Hlen. fold B in Hlen.
  set (ts' := map Lst (map (fun s => truncate s B) ts)) in *.
  assert (Hne' : ts' <> []).
  { intros Hnil. apply (f_equal (map seq_len)) in Hnil.
    rewrite Hlen in Hnil. destruct ts; [congruence | discriminate]. }
  assert (HB' : longest_len ts' = B) by now apply longest_len_ext.
  unfold preprocess_cell.
  cbn [training_sequences training_labels validation_sequences
       validation_labels test_sequences test_labels].
  rewrite (preprocess_dataset_default ts ts tl Hne). fold B.
  cbn [bind fst snd training_sequences training_labels validation_sequences
       validation_labels test_sequences test_labels].
  fold ts'.
  rewrite (preprocess_dataset_default ts' vs vl Hne'), HB'.
  cbn [bind fst snd training_sequences training_labels validation_sequences
       validation_labels test_sequences test_labels].
  rewrite (preprocess_dataset_default ts' es el Hne'), HB'.
  cbn [bind fst snd]. unfold ts', cut. now rewrite !map_map.
Qed.

(** C9: when [training_sequences] is not empty, the bound computed for
    [max_length=None] is the length of its longest member; truncating the
    training split to that bound keeps every training length, so the
    second and third calls of the preprocessing cell, which read the
    rebound [training_sequences], compute the same bound: the three splits
    are truncated to one and the same maximum training length. *)
Theorem default_bound_shared (g : globals) :
  training_sequences g <> [] ->
  let B := longest_len (training_sequences g) in
  default_max_length (training_sequences g) = Ok B /\
  Forall (fun s => seq_len s <= B) (training_sequences g) /\
  Exists (fun s => seq_len s = B) (training_sequences g) /\
  exists g',
    preprocess_cell g = Ok g' /\
    training_sequences g'
      = map (fun s => Lst (truncate s B)) (training_sequences g) /\
    validation_sequences g'
      = map (fun s => Lst (truncate s B)) (validation_sequences g) /\
    test_sequences g'
      = map (fun s => Lst (truncate s B)) (test_sequences g) /\
    map seq_len (training_sequences g') = map seq_len (training_sequences g) /\
    default_max_length (training_sequences g') = Ok B /\
    training_labels g' = training_labels g /\
    validation_labels g' = validation_labels g /\
    test_labels g' = test_labels g.
Proof.
  intros Hne B.
  assert (Hlen : map seq_len (map (fun s => Lst (truncate s B))
                                   (training_sequences g))
                 = map seq_len (training_sequences g)).
  { rewrite <- (map_map (fun s => truncate s B) Lst).
    apply rebound_training_lengths. }
  split; [now apply default_max_length_nonempty |].
  split; [apply longest_len_upper |].
  split.
  { destruct (training_sequences g) as [| x rest]; [congruence |].
    apply longest_len_attained. }
  eexists. split; [now apply preprocess_cell_run |].
  cbn [training_sequences training_labels validation_sequences
       validation_labels test_sequences test_labels]. fold B.
  split; [reflexivity |]. split; [reflexivity |]. split; [reflexivity |].
  split; [exact Hlen |].
  split; [| repeat split].
  set (ts' := map (fun s => Lst (truncate s B)) (training_sequences g)) in *.
  assert (Hne' : ts' <> []).
  { intros Hnil. rewrite Hnil in Hlen.
    destruct (training_sequences g); [congruence | discriminate]. }
  rewrite (default_max_length_nonempty _ Hne').
  f_equal. now apply longest_len_ext.
Qed.

(** ** Embedding extraction *)

Lemma len_slice {A} (l : list A) (lo hi : Z) :
  len (slice l (Some lo) (Some hi))
  = Z.max 0 (adjust_index (len l) hi - adjust_index (len l) lo).
Proof.
  unfold slice.
  pose proof (adjust_index_range (len l) lo (len_nonneg l)) as Hlo.
  pose proof (adjust_index_range (len l) hi (len_nonneg l)) as Hhi.
  unfold len at 1. rewrite length_firstn, length_skipn.
  unfold len in *. lia.
Qed.

(** The default window [0:-1] drops the last row and nothing else. *)
Lemma len_slice_default {A} (l : list A) :
  len (slice l (Some 0) (Some (-1))) = Z.max 0 (len l - 1).
Proof.
  rewrite len_slice. pose proof (len_nonneg l) as Hn.
  unfold adjust_index. cbn [Z.ltb Z.compare]. lia.
Qed.

Lemma for_append_app {A B} (body : A -> torch B) (l : list A) (acc : list B)
    (st : torch_state) :
  for_append body l acc st
  = match for_append body l [] st with
    | Ok (out, st') => Ok (acc ++ out, st')
    | Raise e => Raise e
    end.
Proof.
  revert acc st. induction l as [| x rest IH]; intros acc st.
  - cbn. now rewrite app_nil_r.
  - cbn [for_append]. unfold bind_torch.
    destruct (body x st) as [[b st1] | e]; [| reflexivity].
    rewrite (IH (acc ++ [b])), (IH ([] ++ [b])).
    destruct (for_append body rest [] st1) as [[out st2] | e]; [| reflexivity].
    now rewrite <- app_assoc.
Qed.

Section Contracts.

Hypothesis tokenizer_batch : tokenizer_keeps_batch.
Hypothesis encoder_shape : encoder_keeps_shape.

(** A batch of one sample comes back from the encoder as one matrix. *)
Lemma forward_singleton (p : params) (t : bool) (sample : seq) :
  exists e, forward p t (batch_encode_plus [sample]) = [e].
Proof.
  pose proof (tokenizer_batch [sample]) as Hb.
  pose proof (encoder_shape p t (batch_encode_plus [sample])) as Hs.
  apply (f_equal (@List.length nat)) in Hs. rewrite !length_map, Hb in Hs.
  destruct (forward p t (batch_encode_plus [sample])) as [| e [| e' r]];
    cbn in Hs; try discriminate.
  now exists e.
Qed.

Lemma embed_sample_run (shift_left shift_right : Z) (sample : seq)
    (st : torch_state) :
  embed_sample shift_left shift_right sample st
  = Ok (embedding_of (model st) shift_left shift_right sample,
        {| model := model st;
           grad_enabled := grad_enabled st;
           forward_calls :=
             forward_calls st ++ [call_of (model st) (grad_enabled st) sample] |}).
Proof.
  unfold embed_sample, bind_torch, call_model, lift, ret, embedding_of, call_of.
  destruct (forward_singleton (parameters (model st)) (training (model st)) sample)
    as [e He].
  rewrite He. reflexivity.
Qed.

Lemma for_append_embed (shift_left shift_right : Z) (seqs : list seq)
    (st : torch_state) :
  for_append (embed_sample shift_left shift_right) seqs [] st
  = Ok (map (embedding_of (model st) shift_left shift_right) seqs,
        {| model := model st;
           grad_enabled := grad_enabled st;
           forward_calls :=
             forward_calls st ++ map (call_of (model st) (grad_enabled st)) seqs |}).
Proof.
  revert st. induction seqs as [| s rest IH]; intros st.
  - cbn. rewrite app_nil_r. now destruct st.
  - cbn [for_append]. unfold bind_torch at 1.
    rewrite embed_sample_run, for_append_app, IH.
    cbn [model grad_enabled forward_calls map app].
    now rewrite <- app_assoc.
Qed.

(** The whole of [embed_dataset], in closed form: one array per sample, in
    order; the module untouched; the autograd switch put back; one forward
    pass logged per sample, each run with gradients off. *)
Lemma embed_dataset_run (shift_left shift_right : Z) (seqs : list seq)
    (st : torch_state) :
  embed_dataset seqs shift_left shift_right st
  = Ok (map (embedding_of (model st) shift_left shift_right) seqs,
        {| model := model st;
           grad_enabled := grad_enabled st;
           forward_calls :=
             forward_calls st ++ map (call_of (model st) false) seqs |}).
Proof.
  unfold embed_dataset, no_grad. rewrite for_append_embed. reflexivity.
Qed.

End Contracts.

Section Extraction.

Hypothesis tokenizer_batch : tokenizer_keeps_batch.
Hypothesis encoder_shape : encoder_keeps_shape.

(** On a sample of residues the array kept has one row per residue. *)
Lemma embedding_of_rows (residue : string -> Prop) (m : module)
    (ws : list string) :
  tokenizer_appends_eos residue ->
  Forall residue ws ->
  List.length (embedding_of m 0 (-1) (Lst ws)) = List.length ws.
Proof.
  intros Heos Hres. unfold embedding_of.
  destruct (forward_singleton tokenizer_batch encoder_shape
              (parameters m) (training m) (Lst ws)) as [e He].
  pose proof (encoder_shape (parameters m) (training m)
                (batch_encode_plus [Lst ws])) as Hs.
  rewrite He in *. cbn [hd].
  destruct (batch_encode_plus [Lst ws]) as [| ids rest] eqn:Hids;
    cbn [map] in Hs; [discriminate |].
  injection Hs as Hrow _.
  assert (Hn : List.length ids = S (List.length ws)).
  { apply Heos; [assumption | rewrite Hids; now left]. }
  pose proof (len_slice_default e) as Hlen. unfold len in Hlen. lia.
Qed.

(** C2: for the sequences handed to the embedding extractor (lists of
    residue symbols, as preprocessing leaves them), with the tokenizer
    adding its end-of-sequence token and the default window [0:-1], every
    returned embedding has exactly as many rows as its (truncated)
    sequence has residues. *)
Theorem embedding_rows_match_sequence (residue : string -> Prop)
    (wss : list (list string)) (st : torch_state) :
  tokenizer_appends_eos residue ->
  Forall (Forall residue) wss ->
  exists embs st',
    embed_dataset (map Lst wss) 0 (-1) st = Ok (embs, st') /\
    map (@List.length row) embs = map (@List.length string) wss.
Proof.
  intros Heos Hall.
  rewrite (embed_dataset_run tokenizer_batch encoder_shape).
  eexists. eexists. split; [reflexivity |].
  rewrite !map_map. apply map_ext_in. intros ws Hin.
  rewrite Forall_forall in Hall.
  apply (embedding_of_rows residue); [assumption | now apply Hall].
Qed.

(** C3: for every split, [preprocess_dataset] returns the labels it was
    given and one list per sequence, and [embed_dataset] returns one
    embedding per sequence: after both, there are as many embeddings as
    labels. *)
Theorem embeddings_align_with_labels (split : list example)
    (training : list seq) (max_length : option Z) (shift_left shift_right : Z)
    (st : torch_state) :
  (max_length = None -> training <> []) ->
  exists seqs labs embs st',
    preprocess_dataset training (map (fun r => Str (primary r)) split)
      (map log_fluorescence split) max_length = Ok (seqs, labs) /\
    labs = map log_fluorescence split /\
    embed_dataset (map Lst seqs) shift_left shift_right st = Ok (embs, st') /\
    List.length embs = List.length seqs /\
    List.length seqs = List.length split /\
    List.length embs = List.length labs.
Proof.
  intros Hdef.
  assert (Hpre : exists B,
    preprocess_dataset training (map (fun r => Str (primary r)) split)
      (map log_fluorescence split) max_length
    = Ok (map (fun s => truncate s B) (map (fun r => Str (primary r)) split),
          map log_fluorescence split)).
  { destruct max_length as [L |].
    - exists L. apply preprocess_dataset_explicit.
    - exists (longest_len training).
      apply preprocess_dataset_default. now apply Hdef. }
  destruct Hpre as [B Hpre]. rewrite Hpre.
  do 4 eexists. split; [reflexivity |]. split; [reflexivity |].
  split; [apply (embed_dataset_run tokenizer_batch encoder_shape) |].
  now rewrite !length_map.
Qed.

(** C7: [embed_dataset] runs one forward pass per sample, in order, each
    on the batch holding that sample alone; the trainer's per-device batch
    sizes for training and evaluation are both 1. *)
Theorem one_sample_per_forward_pass (seqs : list seq)
    (shift_left shift_right : Z) (st : torch_state) :
  (exists embs st' new,
     embed_dataset seqs shift_left shift_right st = Ok (embs, st') /\
     forward_calls st' = forward_calls st ++ new /\
     map call_input_ids new = map (fun s => batch_encode_plus [s]) seqs /\
     Forall (fun c => List.length (call_input_ids c) = 1%nat) new /\
     List.length embs = List.length new) /\
  per_device_train_batch_size training_args = 1 /\
  per_device_eval_batch_size training_args = 1.
Proof.
  split; [| split; reflexivity].
  rewrite (embed_dataset_run tokenizer_batch encoder_shape).
  do 3 eexists. split; [reflexivity |].
  cbn [forward_calls]. split; [reflexivity |].
  split; [| split].
  - rewrite map_map. reflexivity.
  - apply Forall_forall. intros c Hc. apply in_map_iff in Hc.
    destruct Hc as [s [<- _]]. cbn [call_of call_input_ids].
    apply tokenizer_batch.
  - now rewrite !length_map.
Qed.

(** The embedding cell: three extractions in a row. *)
Lemma embed_cell_run (g : globals) (st : torch_state) :
  embed_cell g st
  = Ok ({| training_embeddings :=
             map (embedding_of (model st) 0 (-1)) (training_sequences g);
           validation_embeddings :=
             map (embedding_of (model st) 0 (-1)) (validation_sequences g);
           test_embeddings :=
             map (embedding_of (model st) 0 (-1)) (test_sequences g) |},
        {| model := model st;
           grad_enabled := grad_enabled st;
           forward_calls :=
             forward_calls st
             ++ map (call_of (model st) false)
                  (training_sequences g ++ validation_sequences g
                   ++ test_sequences g) |}).
Proof.
  unfold embed_cell, bind_torch, ret.
  rewrite (embed_dataset_run tokenizer_batch encoder_shape).
  rewrite (embed_dataset_run tokenizer_batch encoder_shape).
  rewrite (embed_dataset_run tokenizer_batch encoder_shape).
  cbn [model grad_enabled forward_calls].
  now rewrite !map_app, <- !app_assoc.
Qed.

(** C8: the model is in eval mode once the loading cell has run; from
    there, [embed_dataset] on any split, and the embedding cell on all
    three, run every forward pass with gradients off and in eval mode,
    leave the module and so its parameters as they were, and put the
    autograd switch back. *)
Theorem extraction_leaves_encoder_frozen (dev : device) (st0 : torch_state)
    (seqs : list seq) (shift_left shift_right : Z) (g : globals) :
  let st1 := load_model_cell dev st0 in
  training (model st1) = false /\
  parameters (model st1) = parameters (model st0) /\
  (exists embs st2 new,
     embed_dataset seqs shift_left shift_right st1 = Ok (embs, st2) /\
     model st2 = model st1 /\
     parameters (model st2) = parameters (model st0) /\
     grad_enabled st2 = grad_enabled st1 /\
     forward_calls st2 = forward_calls st1 ++ new /\
     List.length new = List.length seqs /\
     Forall (fun c => call_grad_enabled c = false /\ call_training c = false) new) /\
  (exists e st3 new,
     embed_cell g st1 = Ok (e, st3) /\
     parameters (model st3) = parameters (model st0) /\
     forward_calls st3 = forward_calls st1 ++ new /\
     Forall (fun c => call_grad_enabled c = false /\ call_training c = false) new).
Proof.
  intros st1.
  assert (Hcalls : forall l,
    Forall (fun c => call_grad_enabled c = false /\ call_training c = false)
           (map (call_of (model st1) false) l)).
  { intros l. apply Forall_forall. intros c Hc. apply in_map_iff in Hc.
    destruct Hc as [s [<- _]]. split; reflexivity. }
  split; [reflexivity |]. split; [reflexivity |]. split.
  - rewrite (embed_dataset_run tokenizer_batch encoder_shape).
    do 3 eexists. split; [reflexivity |].
    cbn [model grad_enabled forward_calls].
    repeat split; try apply Hcalls. now rewrite length_map.
  - rewrite embed_cell_run.
    do 3 eexists. split; [reflexivity |].
    cbn [model forward_calls]. repeat split. apply Hcalls.
Qed.

End Extraction.

(** The notebook from the loaded dataset to the three adapters: with a
    non-empty training split every cell succeeds and each adapter holds as
    many embeddings as labels, the labels being those of the dataset. *)
Lemma notebook_datasets_aligned (dataset : dataset_dict) (st : torch_state) :
  tokenizer_keeps_batch -> encoder_keeps_shape ->
  train dataset <> [] ->
  exists g e st',
    preprocess_cell (load_splits dataset) = Ok g /\
    embed_cell g st = Ok (e, st') /\
    let d := dataset_cell g e in
    (len (sequences (training_dataset d)) = len (labels (training_dataset d)) /\
     labels (training_dataset d) = map log_fluorescence (train dataset)) /\
    (len (sequences (validation_dataset d)) = len (labels (validation_dataset d)) /\
     labels (validation_dataset d) = map log_fluorescence (validation dataset)) /\
    (len (sequences (test_ds d)) = len (labels (test_ds d)) /\
     labels (test_ds d) = map log_fluorescence (test dataset)).
Proof.
  intros Htok Henc Hne.
  assert (Hne' : training_sequences (load_splits dataset) <> []).
  { cbn [load_splits training_sequences].
    destruct (train dataset); [congruence | discriminate]. }
  do 3 eexists. split; [now apply preprocess_cell_run |].
  split; [now apply embed_cell_run |].
  cbn. unfold len. rewrite !length_map. repeat split.
Qed.

(** ** The dataset adapter *)

Lemma getitem_in_range {A} (l : list A) (i : Z) :
  0 <= i < len l ->
  exists x, nth_error l (Z.to_nat i) = Some x /\ getitem l i = Ok x.
Proof.
  intros [H0 Hlt]. unfold getitem.
  destruct (Z.ltb_spec i 0) as [Hneg | _]; [lia |].
  destruct (Z.ltb_spec i 0) as [Hneg | _]; [lia |].
  destruct (nth_error l (Z.to_nat i)) as [x |] eqn:Hnth.
  - now exists x.
  - apply nth_error_None in Hnth. unfold len in Hlt. lia.
Qed.

Lemma getitem_valid {A} (l : list A) (i : Z) :
  - len l <= i < len l -> exists x, getitem l i = Ok x.
Proof.
  intros [Hlo Hhi]. unfold getitem.
  destruct (Z.ltb_spec i 0) as [Hneg | Hpos].
  - destruct (Z.ltb_spec (i + len l) 0) as [Hbad | _]; [lia |].
    destruct (nth_error l (Z.to_nat (i + len l))) as [x |] eqn:Hnth.
    + now exists x.
    + apply nth_error_None in Hnth. unfold len in *. lia.
  - destruct (Z.ltb_spec i 0) as [Hbad | _]; [lia |].
    destruct (nth_error l (Z.to_nat i)) as [x |] eqn:Hnth.
    + now exists x.
    + apply nth_error_None in Hnth. unfold len in *. lia.
Qed.

(** A scalar label becomes a one-element single-precision tensor. *)
Lemma label_tensor (x : label) :
  unsqueeze (tensor_of_float x) (-1)
  = Ok {| tensor_dtype := torch_float32; shape := [1];
          elements := [to_float32 x] |}.
Proof. reflexivity. Qed.

Lemma getitem_run (ds : FluorescenceDataset) (idx : Z)
    (sample : list row) (l : label) :
  getitem (sequences ds) idx = Ok sample ->
  getitem (labels ds) idx = Ok l ->
  __getitem__ idx ds
  = (Ok {| item_embed := sample;
           item_labels := {| tensor_dtype := torch_float32; shape := [1];
                             elements := [to_float32 l] |} |}, ds).
Proof.
  intros Hs Hl. unfold __getitem__. rewrite Hs, Hl. cbn [bind].
  now rewrite label_tensor.
Qed.

(** C5: an adapter holding one embedding per label, that is a collection
    of (embedding, label) pairs, answers [__getitem__(idx)], for
    [0 <= idx < len(dataset)], with the [idx]-th embedding it was built
    with and the [idx]-th label, in the order given; neither [__getitem__]
    nor [__len__] changes the object, whatever the index and whether or not
    the call raises. *)
Theorem adapter_indexed_access :
  (forall (ds : FluorescenceDataset) (idx n : Z),
     len (sequences ds) = len (labels ds) ->
     fst (__len__ ds) = Ok n ->
     0 <= idx < n ->
     exists sample l,
       nth_error (sequences ds) (Z.to_nat idx) = Some sample /\
       nth_error (labels ds) (Z.to_nat idx) = Some l /\
       __getitem__ idx ds
       = (Ok {| item_embed := sample;
                item_labels := {| tensor_dtype := torch_float32; shape := [1];
                                  elements := [to_float32 l] |} |}, ds)) /\
  (forall (pairs : list (list row * label)) (idx : Z),
     let ds := __init__ (map fst pairs) (map snd pairs) in
     fst (__len__ ds) = Ok (len pairs) /\
     (0 <= idx < len pairs ->
      exists sample l,
        nth_error pairs (Z.to_nat idx) = Some (sample, l) /\
        fst (__getitem__ idx ds)
        = Ok {| item_embed := sample;
                item_labels := {| tensor_dtype := torch_float32; shape := [1];
                                  elements := [to_float32 l] |} |})) /\
  (forall (ds : FluorescenceDataset) (idx : Z),
     snd (__getitem__ idx ds) = ds /\ snd (__len__ ds) = ds).
Proof.
  assert (Hgen : forall (ds : FluorescenceDataset) (idx : Z),
    len (sequences ds) = len (labels ds) ->
    0 <= idx < len (labels ds) ->
    exists sample l,
      nth_error (sequences ds) (Z.to_nat idx) = Some sample /\
      nth_error (labels ds) (Z.to_nat idx) = Some l /\
      __getitem__ idx ds
      = (Ok {| item_embed := sample;
               item_labels := {| tensor_dtype := torch_float32; shape := [1];
                                 elements := [to_float32 l] |} |}, ds)).
  { intros ds idx Hal Hidx.
    destruct (getitem_in_range (sequences ds) idx) as [sample [Hs Hgs]]; [lia |].
    destruct (getitem_in_range (labels ds) idx) as [l [Hl Hgl]]; [lia |].
    exists sample, l. split; [exact Hs |]. split; [exact Hl |].
    now apply getitem_run. }
  split; [| split].
  - intros ds idx n Hal Hlen Hidx.
    cbn in Hlen. injection Hlen as Hn. subst n. now apply Hgen.
  - intros pairs idx ds. split.
    + cbn. unfold len. now rewrite length_map.
    + intros Hidx.
      destruct (Hgen ds idx) as (sample & l & Hs & Hl & Hrun).
      { cbn [ds sequences labels]. unfold len. now rewrite !length_map. }
      { cbn [ds labels]. unfold len in *. now rewrite length_map. }
      exists sample, l. split; [| now rewrite Hrun].
      cbn [ds sequences labels] in Hs, Hl.
      rewrite nth_error_map in Hs. rewrite nth_error_map in Hl.
      destruct (nth_error pairs (Z.to_nat idx)) as [[s' l'] |];
        cbn in Hs, Hl; congruence.
  - intros ds idx. split; reflexivity.
Qed.

(** C10: at every index valid for both stored lists, [__getitem__] returns
    the label as a [float32] tensor of shape [(1,)] holding the rounded
    label; [__len__] is the number of labels, whatever the number of
    embeddings. *)
Theorem getitem_label_shape :
  (forall (ds : FluorescenceDataset) (idx : Z),
     - len (labels ds) <= idx < len (labels ds) ->
     - len (sequences ds) <= idx < len (sequences ds) ->
     exists sample l,
       getitem (sequences ds) idx = Ok sample /\
       getitem (labels ds) idx = Ok l /\
       fst (__getitem__ idx ds)
       = Ok {| item_embed := sample;
               item_labels := {| tensor_dtype := torch_float32; shape := [1];
                                 elements := [to_float32 l] |} |}) /\
  (forall (embs : list (list row)) (labs : list label),
     fst (__len__ (__init__ embs labs)) = Ok (len labs)).
Proof.
  split.
  - intros ds idx Hl Hs.
    destruct (getitem_valid (sequences ds) idx Hs) as [sample Hsample].
    destruct (getitem_valid (labels ds) idx Hl) as [l Hlabel].
    exists sample, l. split; [assumption |]. split; [assumption |].
    now rewrite (getitem_run ds idx sample l).
  - reflexivity.
Qed.

(** ** The trainer's configuration *)

(** C6: the trainer receives [training_args] and [compute_metrics];
    evaluation and saving are both per epoch, the best model is loaded at
    the end, the selection metric is ["eval_spearmanr"], which is the key
    under which the trainer reports the one metric [compute_metrics]
    returns, and greater values are better. *)
Theorem trainer_selects_by_spearman (d : datasets) (p : EvalPrediction) :
  args (trainer d) = training_args /\
  evaluation_strategy training_args = "epoch"%string /\
  save_strategy training_args = "epoch"%string /\
  load_best_model_at_end training_args = true /\
  metric_for_best_model training_args = "eval_spearmanr"%string /\
  greater_is_better training_args = true /\
  trainer_compute_metrics (trainer d) p
  = [("spearmanr"%string, spearmanr (label_ids p) (predictions p))] /\
  map (fun kv => eval_key (fst kv)) (trainer_compute_metrics (trainer d) p)
  = [metric_for_best_model training_args].
Proof. repeat split. Qed.

(** ** Further properties of preprocessing *)

(** For a non-negative bound the slice is the plain prefix of that
    length. *)
Lemma truncate_nonneg (s : seq) (L : Z) :
  0 <= L -> truncate s L = firstn (Z.to_nat L) (to_list s).
Proof.
  intros HL.
  assert (Hpre : forall (A : Type) (l : list A),
            slice l None (Some L) = firstn (Z.to_nat L) l).
  { intros A l. rewrite slice_prefix, adjust_index_nonneg by assumption.
    pose proof (len_nonneg l) as Hn.
    destruct (Z_le_gt_dec (len l) L) as [Hle | Hgt].
    - rewrite Z.min_l by assumption.
      rewrite !firstn_all2; [reflexivity | unfold len in *; lia ..].
    - rewrite Z.min_r by lia. reflexivity. }
  destruct s as [s | l].
  - rewrite truncate_Str. cbn [to_list]. apply Hpre.
  - rewrite truncate_Lst. cbn [to_list]. apply Hpre.
Qed.

Lemma truncate_twice (s : seq) (L1 L2 : Z) :
  0 <= L1 -> 0 <= L2 ->
  truncate (Lst (truncate s L1)) L2 = truncate s (Z.min L1 L2).
Proof.
  intros H1 H2.
  rewrite (truncate_nonneg (Lst _) L2 H2). cbn [to_list].
  rewrite (truncate_nonneg s L1 H1), (truncate_nonneg s (Z.min L1 L2)) by lia.
  rewrite firstn_firstn. f_equal. lia.
Qed.

(** X1: [preprocess_dataset] has exactly two outcomes.  It raises
    [ValueError] when [max_length] is [None] and the global
    [training_sequences] is empty, whatever sequences it was given (an
    empty list too); in every other case it returns the labels with each
    sequence cut at one common bound, the given one or the longest training
    length. *)
Theorem preprocess_dataset_outcomes (training seqs : list seq)
    (labs : list label) (max_length : option Z) :
  (max_length = None /\ training = [] /\
   preprocess_dataset training seqs labs max_length = Raise ValueError) \/
  (exists L,
     (max_length = Some L \/
      (max_length = None /\ training <> [] /\ L = longest_len training)) /\
     preprocess_dataset training seqs labs max_length
     = Ok (map (fun s => truncate s L) seqs, labs)).
Proof.
  destruct max_length as [L |].
  - right. exists L. split; [now left | apply preprocess_dataset_explicit].
  - destruct training as [| x rest].
    + left. repeat split.
    + right. exists (longest_len (x :: rest)). split.
      * right. repeat split. discriminate.
      * apply preprocess_dataset_default. discriminate.
Qed.

(** X2: truncation composes.  Preprocessing, with a non-negative bound,
    the output of a preprocessing with another non-negative bound gives
    what a single preprocessing with the smaller bound gives; with the same
    bound it changes nothing. *)
Theorem preprocess_dataset_twice (training training' seqs : list seq)
    (labs : list label) (L1 L2 : Z) :
  0 <= L1 -> 0 <= L2 ->
  exists out,
    preprocess_dataset training seqs labs (Some L1) = Ok (out, labs) /\
    preprocess_dataset training' (map Lst out) labs (Some L2)
    = preprocess_dataset training seqs labs (Some (Z.min L1 L2)) /\
    preprocess_dataset training' (map Lst out) labs (Some L1) = Ok (out, labs).
Proof.
  intros H1 H2. eexists. split; [apply preprocess_dataset_explicit |].
  rewrite !preprocess_dataset_explicit. split.
  - f_equal. f_equal. rewrite !map_map. apply map_ext. intros s.
    now apply truncate_twice.
  - f_equal. f_equal. rewrite !map_map. apply map_ext. intros s.
    rewrite truncate_twice by assumption. now rewrite Z.min_id.
Qed.

(** X3: the preprocessing cell fails exactly when the training split is
    empty, with [ValueError] and whatever the other two splits hold;
    otherwise all three assignments succeed. *)
Theorem preprocess_cell_outcomes (g : globals) :
  (training_sequences g = [] /\ preprocess_cell g = Raise ValueError) \/
  (training_sequences g <> [] /\ exists g', preprocess_cell g = Ok g').
Proof.
  destruct (training_sequences g) as [| x rest] eqn:Hts.
  - left. split; [reflexivity |].
    unfold preprocess_cell. rewrite Hts. reflexivity.
  - right. split; [discriminate |].
    eexists. apply preprocess_cell_run. rewrite Hts. discriminate.
Qed.

Lemma cut_nonempty (B : Z) (l : list seq) :
  l <> [] -> map (fun s => Lst (truncate s B)) l <> [].
Proof. destruct l; [congruence | discriminate]. Qed.

Lemma longest_len_cut (l : list seq) :
  longest_len (map (fun s => Lst (truncate s (longest_len l))) l)
  = longest_len l.
Proof.
  apply longest_len_ext.
  rewrite <- (map_map (fun s => truncate s (longest_len l)) Lst).
  apply rebound_training_lengths.
Qed.

(** X4: running the preprocessing cell a second time changes nothing: on
    the globals the first run leaves, the cell succeeds and returns those
    same globals. *)
Theorem preprocess_cell_rerun (g : globals) :
  training_sequences g <> [] ->
  exists g', preprocess_cell g = Ok g' /\ preprocess_cell g' = Ok g'.
Proof.
  intros Hne. eexists. split; [now apply preprocess_cell_run |].
  set (B := longest_len (training_sequences g)).
  assert (HB : 0 <= B) by apply longest_len_nonneg.
  rewrite preprocess_cell_run;
    cbn [training_sequences training_labels validation_sequences
         validation_labels test_sequences test_labels];
    [| now apply cut_nonempty].
  fold B. unfold B at 1 3 5. rewrite longest_len_cut. fold B.
  assert (Hcut : forall l,
    map (fun s => Lst (truncate s B)) (map (fun s => Lst (truncate s B)) l)
    = map (fun s => Lst (truncate s B)) l).
  { intros l. rewrite map_map. apply map_ext. intros s.
    rewrite truncate_twice by assumption. now rewrite Z.min_id. }
  now rewrite !Hcut.
Qed.

(** X5: with the default bound no training residue is lost: the cell
    rebinds [training_sequences] to the full character lists of the
    training strings, and [preprocess_dataset] called on a non-empty
    [training_sequences] itself returns every sequence whole. *)
Theorem default_bound_keeps_training (g : globals) :
  training_sequences g <> [] ->
  preprocess_dataset (training_sequences g) (training_sequences g)
    (training_labels g) None
  = Ok (map to_list (training_sequences g), training_labels g) /\
  exists g',
    preprocess_cell g = Ok g' /\
    training_sequences g' = map (fun s => Lst (to_list s)) (training_sequences g).
Proof.
  intros Hne.
  assert (Hwhole : forall s, In s (training_sequences g) ->
            truncate s (longest_len (training_sequences g)) = to_list s).
  { intros s Hin. apply truncate_all.
    pose proof (longest_len_upper (training_sequences g)) as Hup.
    rewrite Forall_forall in Hup. now apply Hup. }
  split.
  - rewrite preprocess_dataset_default by assumption.
    f_equal. f_equal. apply map_ext_in. exact Hwhole.
  - eexists. split; [now apply preprocess_cell_run |].
    cbn [training_sequences]. apply map_ext_in. intros s Hin.
    now rewrite Hwhole.
Qed.

(** ** Further properties of embedding extraction *)

(** One pass of the loop body, whatever the encoder returns: no matrix in
    the returned batch makes [embedding[0]] raise. *)
Lemma embed_sample_cases (shift_left shift_right : Z) (sample : seq)
    (st : torch_state) :
  embed_sample shift_left shift_right sample st
  = match forward (parameters (model st)) (training (model st))
            (batch_encode_plus [sample]) with
    | [] => Raise IndexError
    | _ :: _ =>
        Ok (embedding_of (model st) shift_left shift_right sample,
            {| model := model st;
               grad_enabled := grad_enabled st;
               forward_calls :=
                 forward_calls st
                 ++ [call_of (model st) (grad_enabled st) sample] |})
    end.
Proof.
  unfold embed_sample, bind_torch, call_model, lift, ret, embedding_of, call_of.
  destruct (forward (parameters (model st)) (training (model st))
              (batch_encode_plus [sample])) as [| e rest]; reflexivity.
Qed.

Lemma answered_or_not (m : module) (seqs : list seq) :
  Forall (answered m) seqs \/ Exists (unanswered m) seqs.
Proof.
  induction seqs as [| s rest IH].
  - left. constructor.
  - destruct (forward (parameters m) (training m) (batch_encode_plus [s]))
      as [| e r] eqn:Hs.
    + right. now left.
    + destruct IH as [Hall | Hex].
      * left. constructor; [unfold answered; rewrite Hs; discriminate | assumption].
      * right. now right.
Qed.

Lemma for_append_answered (shift_left shift_right : Z) (seqs : list seq)
    (st : torch_state) :
  Forall (answered (model st)) seqs ->
  for_append (embed_sample shift_left shift_right) seqs [] st
  = Ok (map (embedding_of (model st) shift_left shift_right) seqs,
        {| model := model st;
           grad_enabled := grad_enabled st;
           forward_calls :=
             forward_calls st ++ map (call_of (model st) (grad_enabled st)) seqs |}).
Proof.
  revert st. induction seqs as [| s rest IH]; intros st Hall.
  - cbn. rewrite app_nil_r. now destruct st.
  - inversion Hall as [| ? ? Hs Hrest]; subst. unfold answered in Hs.
    cbn [for_append]. unfold bind_torch at 1.
    rewrite embed_sample_cases.
    destruct (forward (parameters (model st)) (training (model st))
                (batch_encode_plus [s])) as [| e r]; [congruence |].
    rewrite for_append_app, IH by exact Hrest.
    cbn [model grad_enabled forward_calls map app].
    now rewrite <- app_assoc.
Qed.

Lemma for_append_unanswered (shift_left shift_right : Z) (seqs : list seq)
    (acc : list (list row)) (st : torch_state) :
  Exists (unanswered (model st)) seqs ->
  for_append (embed_sample shift_left shift_right) seqs acc st
  = Raise IndexError.
Proof.
  revert acc st. induction seqs as [| s rest IH]; intros acc st Hex.
  - inversion Hex.
  - cbn [for_append]. unfold bind_torch at 1.
    rewrite embed_sample_cases.
    destruct (forward (parameters (model st)) (training (model st))
                (batch_encode_plus [s])) as [| e r] eqn:Hs; [reflexivity |].
    apply IH. cbn [model].
    inversion Hex as [? ? Hhead | ? ? Htail]; subst;
      [unfold unanswered in Hhead; congruence | exact Htail].
Qed.

Lemma embed_dataset_answered (shift_left shift_right : Z) (seqs : list seq)
    (st : torch_state) :
  Forall (answered (model st)) seqs ->
  embed_dataset seqs shift_left shift_right st
  = Ok (map (embedding_of (model st) shift_left shift_right) seqs,
        {| model := model st;
           grad_enabled := grad_enabled st;
           forward_calls :=
             forward_calls st ++ map (call_of (model st) false) seqs |}).
Proof.
  intros Hall. unfold embed_dataset, no_grad.
  rewrite for_append_answered by exact Hall. reflexivity.
Qed.

Lemma embed_dataset_unanswered (shift_left shift_right : Z) (seqs : list seq)
    (st : torch_state) :
  Exists (unanswered (model st)) seqs ->
  embed_dataset seqs shift_left shift_right st = Raise IndexError.
Proof.
  intros Hex. unfold embed_dataset, no_grad.
  rewrite for_append_unanswered by exact Hex. reflexivity.
Qed.

(** X6: [embed_dataset] has exactly two outcomes, decided by the encoder
    alone.  If it returns a non-empty batch for every sample, the result is
    one array per sample, in order, with the state changed only by the
    log; if for some sample it returns an empty batch, [embedding[0]]
    raises [IndexError] and nothing is returned.  An empty list of
    sequences falls in the first case. *)
Theorem embed_dataset_outcomes (seqs : list seq) (shift_left shift_right : Z)
    (st : torch_state) :
  (Forall (answered (model st)) seqs /\
   embed_dataset seqs shift_left shift_right st
   = Ok (map (embedding_of (model st) shift_left shift_right) seqs,
         {| model := model st;
            grad_enabled := grad_enabled st;
            forward_calls :=
              forward_calls st ++ map (call_of (model st) false) seqs |})) \/
  (Exists (unanswered (model st)) seqs /\
   embed_dataset seqs shift_left shift_right st = Raise IndexError).
Proof.
  destruct (answered_or_not (model st) seqs) as [Hall | Hex].
  - left. split; [exact Hall | now apply embed_dataset_answered].
  - right. split; [exact Hex | now apply embed_dataset_unanswered].
Qed.

(** X7: extraction distributes over concatenation.  Embedding two lists
    one after the other and appending the results is the same computation,
    failures and log included, as embedding their concatenation. *)
Theorem embed_dataset_app (l1 l2 : list seq) (shift_left shift_right : Z)
    (st : torch_state) :
  embed_dataset (l1 ++ l2) shift_left shift_right st
  = bind_torch (embed_dataset l1 shift_left shift_right) (fun e1 =>
    bind_torch (embed_dataset l2 shift_left shift_right) (fun e2 =>
    ret (e1 ++ e2))) st.
Proof.
  unfold bind_torch at 1.
  destruct (answered_or_not (model st) l1) as [H1 | H1].
  - rewrite (embed_dataset_answered _ _ l1 st H1).
    unfold bind_torch, ret.
    destruct (answered_or_not (model st) l2) as [H2 | H2].
    + rewrite embed_dataset_answered by (apply Forall_app; now split).
      rewrite embed_dataset_answered by exact H2.
      cbn [model grad_enabled forward_calls].
      now rewrite !map_app, <- app_assoc.
    + rewrite embed_dataset_unanswered by (apply Exists_app; now right).
      now rewrite embed_dataset_unanswered by exact H2.
  - rewrite embed_dataset_unanswered by (apply Exists_app; now left).
    now rewrite (embed_dataset_unanswered _ _ l1 st H1).
Qed.

Lemma slice_stop_zero {A} (l : list A) (lo : Z) :
  slice l (Some lo) (Some 0) = [].
Proof.
  unfold slice.
  pose proof (adjust_index_range (len l) lo (len_nonneg l)) as Hlo.
  pose proof (len_nonneg l) as Hn.
  replace (adjust_index (len l) 0) with 0
    by (unfold adjust_index; cbn [Z.ltb Z.compare]; lia).
  replace (Z.to_nat (0 - adjust_index (len l) lo)) with 0%nat by lia.
  reflexivity.
Qed.

(** The default window drops the last element and keeps the rest. *)
Lemma slice_default_snoc {A} (l : list A) (a : A) :
  slice (l ++ [a]) (Some 0) (Some (-1)) = l.
Proof.
  unfold slice.
  assert (Hn : len (l ++ [a]) = len l + 1).
  { unfold len. rewrite length_app. cbn [List.length]. lia. }
  pose proof (len_nonneg l) as Hl.
  rewrite Hn. unfold adjust_index. cbn [Z.ltb Z.compare].
  rewrite Z.min_l by lia. cbn [Z.to_nat skipn].
  replace (Z.to_nat (Z.max 0 (-1 + (len l + 1)) - 0)) with (List.length l)
    by (unfold len in *; lia).
  rewrite firstn_app, firstn_all, Nat.sub_diag. cbn [firstn].
  apply app_nil_r.
Qed.

Section Windows.

Hypothesis tokenizer_batch : tokenizer_keeps_batch.
Hypothesis encoder_shape : encoder_keeps_shape.

(** X8: every embedding depends on its own sample and on the model, not on
    the rest of the list: the array stored at position [i] is the one
    [embed_dataset] returns for the one-element list holding that sample,
    from any state with the same model. *)
Theorem embedding_depends_on_sample_only (seqs : list seq)
    (shift_left shift_right : Z) (st : torch_state) :
  exists embs st',
    embed_dataset seqs shift_left shift_right st = Ok (embs, st') /\
    List.length embs = List.length seqs /\
    forall i s alone,
      nth_error seqs i = Some s ->
      model alone = model st ->
      exists e alone',
        embed_dataset [s] shift_left shift_right alone = Ok ([e], alone') /\
        nth_error embs i = Some e.
Proof.
  rewrite (embed_dataset_run tokenizer_batch encoder_shape).
  do 2 eexists. split; [reflexivity |]. split; [apply length_map |].
  intros i s alone Hi Hmodel.
  rewrite (embed_dataset_run tokenizer_batch encoder_shape).
  do 2 eexists. split; [reflexivity |].
  rewrite Hmodel, nth_error_map, Hi. reflexivity.
Qed.

(** X10: a [shift_right] of zero does not mean "keep everything up to the
    end": the window [shift_left:0] is empty, so every embedding comes back
    with no row, whatever [shift_left] is. *)
Theorem shift_right_zero_keeps_nothing (seqs : list seq) (shift_left : Z)
    (st : torch_state) :
  exists st',
    embed_dataset seqs shift_left 0 st = Ok (map (fun _ => []) seqs, st').
Proof.
  rewrite (embed_dataset_run tokenizer_batch encoder_shape).
  eexists. f_equal. f_equal. apply map_ext. intros s.
  unfold embedding_of. apply slice_stop_zero.
Qed.

Variable residue : string -> Prop.
Hypothesis tokenizer_eos : tokenizer_appends_eos residue.

(** On a sample of [n] residues the encoder returns one matrix of [n + 1]
    rows. *)
Lemma forward_rows (m : module) (ws : list string) :
  Forall residue ws ->
  exists e,
    forward (parameters m) (training m) (batch_encode_plus [Lst ws]) = [e] /\
    List.length e = S (List.length ws).
Proof.
  intros Hres.
  destruct (forward_singleton tokenizer_batch encoder_shape
              (parameters m) (training m) (Lst ws)) as [e He].
  exists e. split; [exact He |].
  pose proof (encoder_shape (parameters m) (training m)
                (batch_encode_plus [Lst ws])) as Hs.
  rewrite He in Hs.
  destruct (batch_encode_plus [Lst ws]) as [| ids rest] eqn:Hids;
    cbn [map] in Hs; [discriminate |].
  injection Hs as Hrow _. rewrite Hrow.
  apply tokenizer_eos; [assumption | rewrite Hids; now left].
Qed.

(** X9: with [shift_left >= 0] and [shift_right < 0], the embedding of a
    sequence of [n] residues has [max(0, n + 1 + shift_right - shift_left)]
    rows: [shift_left] rows are dropped at the start, [-shift_right] at the
    end, counted on the [n + 1] rows the encoder returns. *)
Theorem window_row_count (wss : list (list string))
    (shift_left shift_right : Z) (st : torch_state) :
  0 <= shift_left -> shift_right < 0 ->
  Forall (Forall residue) wss ->
  exists embs st',
    embed_dataset (map Lst wss) shift_left shift_right st = Ok (embs, st') /\
    map len embs
    = map (fun ws => Z.max 0 (len ws + 1 + shift_right - shift_left)) wss.
Proof.
  intros Hl Hr Hall.
  rewrite (embed_dataset_run tokenizer_batch encoder_shape).
  do 2 eexists. split; [reflexivity |].
  rewrite !map_map. apply map_ext_in. intros ws Hin.
  rewrite Forall_forall in Hall.
  destruct (forward_rows (model st) ws (Hall ws Hin)) as [e [He Hrows]].
  unfold embedding_of. rewrite He. cbn [hd].
  rewrite len_slice. unfold adjust_index, len in *.
  destruct (Z.ltb_spec shift_right 0); destruct (Z.ltb_spec shift_left 0); lia.
Qed.

(** X11: with the default window, what is stored for a sequence of
    residues is the encoder's output without its last row: the encoder
    returns the stored rows, in the same order, followed by exactly one
    more row (the end-of-sequence position), and there is one stored row
    per residue. *)
Theorem default_window_drops_last_row (wss : list (list string))
    (st : torch_state) :
  Forall (Forall residue) wss ->
  exists embs st',
    embed_dataset (map Lst wss) 0 (-1) st = Ok (embs, st') /\
    Forall2 (fun ws emb =>
               List.length emb = List.length ws /\
               exists eos_row,
                 forward (parameters (model st)) (training (model st))
                   (batch_encode_plus [Lst ws])
                 = [emb ++ [eos_row]])
            wss embs.
Proof.
  intros Hall.
  rewrite (embed_dataset_run tokenizer_batch encoder_shape).
  do 2 eexists. split; [reflexivity |].
  rewrite map_map.
  induction wss as [| ws rest IH]; cbn [map]; constructor.
  - inversion Hall as [| ? ? Hws _]; subst.
    destruct (forward_rows (model st) ws Hws) as [e [He Hrows]].
    unfold embedding_of. rewrite He. cbn [hd].
    destruct (exists_last (l := e)) as [body [eos_row Hsplit]].
    { intros Hnil. rewrite Hnil in Hrows. discriminate. }
    subst e. rewrite slice_default_snoc. split.
    + rewrite length_app in Hrows. cbn [List.length] in Hrows. lia.
    + now exists eos_row.
  - apply IH. now inversion Hall.
Qed.

End Windows.

(** ** Further properties of the dataset adapter *)

Lemma getitem_invalid {A} (l : list A) (i : Z) :
  ~ (- len l <= i < len l) -> getitem l i = Raise IndexError.
Proof.
  intros Hbad. unfold getitem. pose proof (len_nonneg l) as Hn.
  destruct (Z.ltb_spec i 0) as [Hneg | Hpos].
  - destruct (Z.ltb_spec (i + len l) 0) as [_ | Hok]; [reflexivity | lia].
  - destruct (Z.ltb_spec i 0) as [Himp | _]; [lia |].
    destruct (nth_error l (Z.to_nat i)) as [x |] eqn:Hnth; [| reflexivity].
    assert (Hlt : (Z.to_nat i < List.length l)%nat).
    { apply nth_error_Some. congruence. }
    unfold len in *. lia.
Qed.

Lemma getitem_negative {A} (l : list A) (i : Z) :
  - len l <= i < 0 -> getitem l i = getitem l (i + len l).
Proof.
  intros [Hlo Hhi]. unfold getitem. cbv zeta.
  destruct (Z.ltb_spec i 0) as [_ | Hbad]; [| lia].
  destruct (Z.ltb_spec (i + len l) 0) as [Hbad | _]; [lia |].
  destruct (Z.ltb_spec (i + len l) 0) as [Hbad | _]; [lia |].
  reflexivity.
Qed.

(** X12: the adapter can serve every index of [range(len(dataset))] if and
    only if it holds at least as many embeddings as labels; [__len__]
    counts labels only, so with fewer embeddings some index below the
    reported length raises. *)
Theorem adapter_serves_its_range (ds : FluorescenceDataset) :
  (forall idx, 0 <= idx < len (labels ds) ->
               exists it, fst (__getitem__ idx ds) = Ok it)
  <-> len (labels ds) <= len (sequences ds).
Proof.
  split.
  - intros Hserve.
    destruct (Z_le_gt_dec (len (labels ds)) (len (sequences ds)))
      as [Hle | Hgt]; [exact Hle | exfalso].
    pose proof (len_nonneg (sequences ds)) as Hn.
    destruct (Hserve (len (sequences ds))) as [it Hit]; [lia |].
    unfold __getitem__ in Hit. cbn [fst] in Hit.
    rewrite (getitem_invalid (sequences ds)) in Hit by lia.
    discriminate.
  - intros Hle idx Hidx.
    destruct (getitem_in_range (sequences ds) idx) as [sample [_ Hs]]; [lia |].
    destruct (getitem_in_range (labels ds) idx) as [l [_ Hl]]; [lia |].
    rewrite (getitem_run ds idx sample l Hs Hl). now eexists.
Qed.

(** X13: [__getitem__] has exactly two outcomes: an item, when the index
    lies in [-n .. n-1] for both stored lists ([n] being the length of
    each), and [IndexError] otherwise; no other exception comes out of
    it. *)
Theorem getitem_outcomes (ds : FluorescenceDataset) (idx : Z) :
  ((- len (sequences ds) <= idx < len (sequences ds) /\
    - len (labels ds) <= idx < len (labels ds)) /\
   exists it, fst (__getitem__ idx ds) = Ok it) \/
  (~ (- len (sequences ds) <= idx < len (sequences ds) /\
      - len (labels ds) <= idx < len (labels ds)) /\
   fst (__getitem__ idx ds) = Raise IndexError).
Proof.
  destruct (Z_le_gt_dec (- len (sequences ds)) idx) as [Hs1 | Hs1];
    [destruct (Z_lt_ge_dec idx (len (sequences ds))) as [Hs2 | Hs2] |].
  - destruct (getitem_valid (sequences ds) idx) as [sample Hsample]; [lia |].
    destruct (Z_le_gt_dec (- len (labels ds)) idx) as [Hl1 | Hl1];
      [destruct (Z_lt_ge_dec idx (len (labels ds))) as [Hl2 | Hl2] |].
    + destruct (getitem_valid (labels ds) idx) as [l Hlabel]; [lia |].
      left. split; [lia |].
      rewrite (getitem_run ds idx sample l Hsample Hlabel). now eexists.
    + right. split; [lia |]. unfold __getitem__. cbn [fst].
      rewrite Hsample, (getitem_invalid (labels ds)) by lia. reflexivity.
    + right. split; [lia |]. unfold __getitem__. cbn [fst].
      rewrite Hsample, (getitem_invalid (labels ds)) by lia. reflexivity.
  - right. split; [lia |]. unfold __getitem__. cbn [fst].
    rewrite (getitem_invalid (sequences ds)) by lia. reflexivity.
  - right. split; [lia |]. unfold __getitem__. cbn [fst].
    rewrite (getitem_invalid (sequences ds)) by lia. reflexivity.
Qed.

(** X14: on an adapter with as many embeddings as labels, a negative index
    [-k] with [1 <= k <= len(dataset)] returns the item at [len(dataset) - k]:
    negative indices count pairs from the end. *)
Theorem getitem_from_the_end (ds : FluorescenceDataset) (idx : Z) :
  len (sequences ds) = len (labels ds) ->
  - len (labels ds) <= idx < 0 ->
  __getitem__ idx ds = __getitem__ (idx + len (labels ds)) ds /\
  exists it, fst (__getitem__ idx ds) = Ok it.
Proof.
  intros Hal Hidx. split.
  - unfold __getitem__.
    rewrite (getitem_negative (sequences ds)) by lia.
    rewrite (getitem_negative (labels ds)) by lia.
    now rewrite Hal.
  - destruct (getitem_valid (sequences ds) idx) as [sample Hs]; [lia |].
    destruct (getitem_valid (labels ds) idx) as [l Hl]; [lia |].
    rewrite (getitem_run ds idx sample l Hs Hl). now eexists.
Qed.

(** ** The notebook from the dataset to the trainer *)

Section Pipeline.

Hypothesis tokenizer_batch : tokenizer_keeps_batch.
Hypothesis encoder_shape : encoder_keeps_shape.

(** The cells up to the adapters, in closed form. *)
Lemma notebook_datasets_run (cuda_is_available : bool) (dataset : dataset_dict)
    (st : torch_state) :
  train dataset <> [] ->
  let m := to (eval (model st)) (select_device cuda_is_available) in
  let B := longest_len (map (fun r => Str (primary r)) (train dataset)) in
  let cut := fun rows : list example =>
               map (fun s => Lst (truncate s B))
                   (map (fun r => Str (primary r)) rows) in
  let adapter := fun rows : list example =>
                   __init__ (map (embedding_of m 0 (-1)) (cut rows))
                            (map log_fluorescence rows) in
  notebook_datasets cuda_is_available dataset st
  = Ok ({| training_dataset := adapter (train dataset);
           validation_dataset := adapter (validation dataset);
           test_ds := adapter (test dataset) |},
        {| model := m;
           grad_enabled := grad_enabled st;
           forward_calls :=
             forward_calls st
             ++ map (call_of m false)
                  (cut (train dataset) ++ cut (validation dataset)
                   ++ cut (test dataset)) |}).
Proof.
  intros Hne m B cut adapter.
  assert (Hne' : training_sequences (load_splits dataset) <> []).
  { cbn [load_splits training_sequences].
    destruct (train dataset); [congruence | discriminate]. }
  unfold notebook_datasets, bind_torch, lift.
  rewrite (preprocess_cell_run _ Hne').
  rewrite (embed_cell_run tokenizer_batch encoder_shape).
  reflexivity.
Qed.

(** X17: what the notebook leaves behind in the torch runtime once the
    adapters are built: the parameter count [get_num_params] reports is the
    one before; the model is in eval mode and on the selected device; the
    autograd switch is as it was; and the encoder has run once per
    sequence of the three splits. *)
Theorem notebook_leaves_model_frozen (cuda_is_available : bool)
    (dataset : dataset_dict) (st : torch_state) :
  train dataset <> [] ->
  exists d st',
    notebook_datasets cuda_is_available dataset st = Ok (d, st') /\
    get_num_params (model st') = get_num_params (model st) /\
    training (model st') = false /\
    on_device (model st') = select_device cuda_is_available /\
    grad_enabled st' = grad_enabled st /\
    len (forward_calls st')
    = len (forward_calls st) + len (train dataset)
      + len (validation dataset) + len (test dataset).
Proof.
  intros Hne. do 2 eexists.
  split; [now apply notebook_datasets_run |].
  cbn [model grad_enabled forward_calls].
  repeat split.
  unfold len. rewrite !length_app, !length_map, !length_app, !length_map. lia.
Qed.

(** X16: the test split does not reach the trainer.  Two datasets with the
    same training and validation splits give the trainer the same training
    and evaluation adapters, whatever their test splits hold. *)
Theorem test_split_does_not_reach_trainer (cuda_is_available : bool)
    (dataset1 dataset2 : dataset_dict) (st : torch_state) :
  train dataset1 = train dataset2 ->
  validation dataset1 = validation dataset2 ->
  train dataset1 <> [] ->
  exists d1 d2 st1 st2,
    notebook_datasets cuda_is_available dataset1 st = Ok (d1, st1) /\
    notebook_datasets cuda_is_available dataset2 st = Ok (d2, st2) /\
    train_dataset (trainer d1) = train_dataset (trainer d2) /\
    eval_dataset (trainer d1) = eval_dataset (trainer d2) /\
    args (trainer d1) = args (trainer d2).
Proof.
  intros Ht Hv Hne.
  assert (Hne2 : train dataset2 <> []) by now rewrite <- Ht.
  do 4 eexists.
  split; [now apply notebook_datasets_run |].
  split; [now apply notebook_datasets_run |].
  cbn [trainer train_dataset eval_dataset args training_dataset
       validation_dataset].
  rewrite Ht, Hv. repeat split.
Qed.

Variable residue : string -> Prop.
Hypothesis tokenizer_eos : tokenizer_appends_eos residue.

(** The item an adapter built by the notebook returns for a row of its
    split. *)
Lemma item_of_row (m : module) (B : Z) (rows : list example) (i : nat)
    (r : example) :
  0 <= B ->
  nth_error rows i = Some r ->
  Forall residue (chars (primary r)) ->
  let ds := __init__
              (map (embedding_of m 0 (-1))
                   (map (fun s => Lst (truncate s B))
                        (map (fun r => Str (primary r)) rows)))
              (map log_fluorescence rows) in
  exists emb,
    fst (__getitem__ (Z.of_nat i) ds)
    = Ok {| item_embed := emb;
            item_labels := {| tensor_dtype := torch_float32; shape := [1];
                              elements := [to_float32 (log_fluorescence r)] |} |} /\
    len emb = Z.min (seq_len (Str (primary r))) B.
Proof.
  intros HB Hi Hres ds.
  assert (Hlt : (i < List.length rows)%nat).
  { apply nth_error_Some. congruence. }
  set (emb := embedding_of m 0 (-1) (Lst (truncate (Str (primary r)) B))).
  assert (Hs : getitem (sequences ds) (Z.of_nat i) = Ok emb).
  { destruct (getitem_in_range (sequences ds) (Z.of_nat i)) as [x [Hx Hg]].
    { cbn [ds sequences]. unfold len. rewrite !length_map. lia. }
    rewrite Hg. f_equal. rewrite Nat2Z.id in Hx.
    cbn [ds sequences] in Hx. rewrite !nth_error_map, Hi in Hx.
    cbn [option_map] in Hx. injection Hx as <-. reflexivity. }
  assert (Hl : getitem (labels ds) (Z.of_nat i) = Ok (log_fluorescence r)).
  { destruct (getitem_in_range (labels ds) (Z.of_nat i)) as [x [Hx Hg]].
    { cbn [ds labels]. unfold len. rewrite !length_map. lia. }
    rewrite Hg. f_equal. rewrite Nat2Z.id in Hx.
    cbn [ds labels] in Hx. rewrite nth_error_map, Hi in Hx.
    cbn [option_map] in Hx. injection Hx as <-. reflexivity. }
  exists emb. split.
  - now rewrite (getitem_run ds _ _ _ Hs Hl).
  - unfold emb, len.
    rewrite (embedding_of_rows tokenizer_batch encoder_shape residue).
    + fold (len (truncate (Str (primary r)) B)).
      rewrite len_truncate. now apply adjust_index_nonneg.
    + exact tokenizer_eos.
    + rewrite truncate_Str. now apply Forall_slice_prefix.
Qed.

(** X15: end to end.  With a non-empty training split, the adapters the
    trainer receives answer index [i] with the label of row [i] of their
    split, as a [float32] tensor of shape [(1,)], and with an embedding of
    one row per residue of that row's sequence: all of them for a training
    row, at most the longest training length for a validation row. *)
Theorem trainer_items_match_rows (cuda_is_available : bool)
    (dataset : dataset_dict) (st : torch_state) :
  train dataset <> [] ->
  exists d st',
    notebook_datasets cuda_is_available dataset st = Ok (d, st') /\
    (forall i r,
       nth_error (train dataset) i = Some r ->
       Forall residue (chars (primary r)) ->
       exists emb,
         fst (__getitem__ (Z.of_nat i) (train_dataset (trainer d)))
         = Ok {| item_embed := emb;
                 item_labels :=
                   {| tensor_dtype := torch_float32; shape := [1];
                      elements := [to_float32 (log_fluorescence r)] |} |} /\
         len emb = seq_len (Str (primary r))) /\
    (forall i r,
       nth_error (validation dataset) i = Some r ->
       Forall residue (chars (primary r)) ->
       exists emb,
         fst (__getitem__ (Z.of_nat i) (eval_dataset (trainer d)))
         = Ok {| item_embed := emb;
                 item_labels :=
                   {| tensor_dtype := torch_float32; shape := [1];
                      elements := [to_float32 (log_fluorescence r)] |} |} /\
         len emb
         = Z.min (seq_len (Str (primary r)))
                 (longest_len (map (fun r => Str (primary r)) (train dataset)))).
Proof.
  intros Hne. do 2 eexists.
  split; [now apply notebook_datasets_run |].
  cbn [trainer train_dataset eval_dataset training_dataset validation_dataset].
  set (B := longest_len (map (fun r => Str (primary r)) (train dataset))).
  assert (HB : 0 <= B) by apply longest_len_nonneg.
  split.
  - intros i r Hi Hres.
    destruct (item_of_row (to (eval (model st)) (select_device cuda_is_available))
                B (train dataset) i r HB Hi Hres) as [emb [Hitem Hlen]].
    exists emb. split; [exact Hitem |].
    rewrite Hlen. apply Z.min_l.
    pose proof (longest_len_upper (map (fun r => Str (primary r)) (train dataset)))
      as Hup.
    rewrite Forall_forall in Hup. apply Hup.
    apply in_map_iff. exists r. split; [reflexivity |].
    eapply nth_error_In; eassumption.
  - intros i r Hi Hres.
    exact (item_of_row _ B (validation dataset) i r HB Hi Hres).
Qed.

End Pipeline.

End Notebook.

(** ** The stand-in model keeps the contracts *)

Lemma demo_tokenizer_keeps_batch : tokenizer_keeps_batch Demo.batch_encode_plus.
Proof.
  intros batch. unfold Demo.batch_encode_plus. now rewrite !length_map.
Qed.

Lemma demo_encoder_keeps_shape : encoder_keeps_shape Demo.forward.
Proof.
  intros p t input_ids. unfold Demo.forward. rewrite map_map.
  apply map_ext. intros ids. apply length_map.
Qed.

Lemma demo_tokenizer_appends_eos :
  tokenizer_appends_eos Demo.batch_encode_plus Demo.residue.
Proof.
  intros ws ids _ Hin. unfold Demo.batch_encode_plus in Hin.
  cbn [map fold_right In] in Hin. destruct Hin as [<- | []].
  unfold Demo.pad_to. rewrite Nat.max_0_r, Nat.sub_diag. cbn [repeat].
  rewrite app_nil_r. unfold Demo.encode. cbn [to_list].
  rewrite length_app, length_map. cbn [List.length]. lia.
Qed.

(** ** The statements at concrete inputs *)

Lemma truncation_length_witness :
  0 <= 3 /\
  exists out,
    preprocess_dataset [] [Str "MKVLA"; Str "MK"] [10; 20] (Some 3)
    = Ok (out, [10; 20]) /\
    map len out = [3; 2].
Proof.
  assert (H3 : 0 <= 3) by lia.
  split; [exact H3 |].
  exact (proj2 (truncation_length [] [Str "MKVLA"; Str "MK"] [10; 20] 3 H3)).
Defined.

(** With [max_length = -1] the slice drops the last residue: four
    characters are kept, while [min(len(s), L)] is [-1]. *)
Lemma truncation_length_negative_bound :
  preprocess_dataset [] [Str "MKVLA"] [10] (Some (-1))
  = Ok ([["M"; "K"; "V"; "L"]%string], [10]) /\
  len (truncate (Str "MKVLA") (-1)) = 4 /\
  Z.min (seq_len (Str "MKVLA")) (-1) = -1 /\
  len (truncate (Str "MKVLA") (-1)) <> Z.min (seq_len (Str "MKVLA")) (-1).
Proof. repeat split. discriminate. Qed.

(** A sequence of two residues preprocessed with [max_length = 3] comes
    back with two characters: nothing pads it to three. *)
Lemma short_sequence_not_padded :
  preprocess_dataset [] [Str "MK"] [10] (Some 3)
  = Ok ([["M"; "K"]%string], [10]) /\
  seq_len (Str "MK") < 3 /\
  len (truncate (Str "MK") 3) <> 3.
Proof. repeat split. discriminate. Qed.

Lemma preprocess_truncates_without_padding_witness :
  (0 <= 3 < seq_len (Str "MKVLA") /\ seq_len (Str "MK") <= 3) /\
  truncate (Str "MKVLA") 3 = ["M"; "K"; "V"]%string /\
  truncate (Str "MK") 3 = ["M"; "K"]%string.
Proof.
  assert (Hlong : 0 <= 3 < seq_len (Str "MKVLA")) by (cbn; lia).
  assert (Hshort : seq_len (Str "MK") <= 3) by (cbn; lia).
  pose proof (preprocess_truncates_without_padding (float64 := Z) [] [] [] 3)
    as [_ Hall].
  split; [split; assumption |]. split.
  - exact (proj1 (proj1 (proj2 (proj2 (Hall "MKVLA"%string))) Hlong)).
  - exact (proj2 (proj2 (proj2 (Hall "MK"%string))) Hshort).
Defined.

Lemma default_bound_shared_witness :
  let g := {| training_sequences := [Str "MKV"; Str "MKVLA"; Str "MKVLG"];
              training_labels := [10; 20; 30];
              validation_sequences := [Str "MKVLAGG"];
              validation_labels := [40];
              test_sequences := [Str "M"];
              test_labels := [50] |} in
  training_sequences g <> [] /\
  default_max_length (training_sequences g) = Ok 5 /\
  exists g',
    preprocess_cell g = Ok g' /\
    validation_sequences g' = [Lst ["M"; "K"; "V"; "L"; "A"]%string] /\
    test_sequences g' = [Lst ["M"]%string] /\
    default_max_length (training_sequences g') = Ok 5.
Proof.
  intros g.
  assert (Hne : training_sequences g <> []) by discriminate.
  split; [exact Hne |].
  destruct (default_bound_shared g Hne)
    as (Hb & _ & _ & g' & Hrun & _ & Hv & Ht & _ & Hb' & _).
  split; [exact Hb |].
  exists g'. repeat split; assumption.
Defined.

Lemma embedding_rows_match_sequence_witness :
  let st := {| model := {| parameters := 10%nat; training := false;
                           on_device := cpu |};
               grad_enabled := true;
               forward_calls := [] |} in
  let wss := [["M"; "K"; "V"]; ["M"]]%string in
  (tokenizer_keeps_batch Demo.batch_encode_plus /\
   encoder_keeps_shape Demo.forward /\
   tokenizer_appends_eos Demo.batch_encode_plus Demo.residue /\
   Forall (Forall Demo.residue) wss) /\
  exists embs st',
    embed_dataset Demo.batch_encode_plus Demo.forward (map Lst wss) 0 (-1) st
    = Ok (embs, st') /\
    map (@List.length (list nat)) embs = [3; 1]%nat.
Proof.
  intros st wss.
  assert (Hres : Forall (Forall Demo.residue) wss).
  { repeat constructor. }
  split.
  - repeat split; [exact demo_tokenizer_keeps_batch
                  | exact demo_encoder_keeps_shape
                  | exact demo_tokenizer_appends_eos
                  | exact Hres].
  - exact (embedding_rows_match_sequence Demo.batch_encode_plus Demo.forward
             demo_tokenizer_keeps_batch demo_encoder_keeps_shape
             Demo.residue wss st demo_tokenizer_appends_eos Hres).
Defined.

Lemma embeddings_align_with_labels_witness :
  let st := {| model := {| parameters := 10%nat; training := false;
                           on_device := cpu |};
               grad_enabled := true;
               forward_calls := [] |} in
  let split := [ {| primary := "MKVLA"; log_fluorescence := 10 |};
                 {| primary := "MK"; log_fluorescence := 20 |} ] in
  let training := [Str "MKV"] in
  (tokenizer_keeps_batch Demo.batch_encode_plus /\
   encoder_keeps_shape Demo.forward /\
   (@None Z = None -> training <> [])) /\
  exists seqs labs embs st',
    preprocess_dataset training (map (fun r => Str (primary r)) split)
      (map log_fluorescence split) None = Ok (seqs, labs) /\
    labs = [10; 20] /\
    embed_dataset Demo.batch_encode_plus Demo.forward (map Lst seqs) 0 (-1) st
    = Ok (embs, st') /\
    List.length embs = List.length seqs /\
    List.length seqs = 2%nat /\
    List.length embs = List.length labs.
Proof.
  intros st split training.
  assert (Hdef : @None Z = None -> training <> []) by (intros _; discriminate).
  split.
  - repeat split; [exact demo_tokenizer_keeps_batch
                  | exact demo_encoder_keeps_shape
                  | exact Hdef].
  - exact (embeddings_align_with_labels Demo.batch_encode_plus Demo.forward
             demo_tokenizer_keeps_batch demo_encoder_keeps_shape
             split training None 0 (-1) st Hdef).
Defined.

Lemma one_sample_per_forward_pass_witness :
  let st := {| model := {| parameters := 10%nat; training := false;
                           on_device := cpu |};
               grad_enabled := true;
               forward_calls := [] |} in
  let seqs := [Lst ["M"; "K"; "V"]%string; Lst ["M"]%string] in
  (tokenizer_keeps_batch Demo.batch_encode_plus /\
   encoder_keeps_shape Demo.forward) /\
  exists embs st' new,
    embed_dataset Demo.batch_encode_plus Demo.forward seqs 0 (-1) st
    = Ok (embs, st') /\
    forward_calls st' = forward_calls st ++ new /\
    map call_input_ids new = [[[3; 3; 3; 1]]; [[3; 1]]]%nat /\
    Forall (fun c => List.length (call_input_ids c) = 1%nat) new /\
    List.length embs = List.length new.
Proof.
  intros st seqs. split.
  - split; [exact demo_tokenizer_keeps_batch | exact demo_encoder_keeps_shape].
  - exact (proj1 (one_sample_per_forward_pass Demo.batch_encode_plus
                    Demo.forward demo_tokenizer_keeps_batch
                    demo_encoder_keeps_shape seqs 0 (-1) st)).
Defined.

Lemma extraction_leaves_encoder_frozen_witness :
  let st0 := {| model := {| parameters := 10%nat; training := true;
                            on_device := cpu |};
                grad_enabled := true;
                forward_calls := [] |} in
  let seqs := [Lst ["M"; "K"; "V"]%string; Lst ["M"]%string] in
  let st1 := load_model_cell (select_device true) st0 in
  (tokenizer_keeps_batch Demo.batch_encode_plus /\
   encoder_keeps_shape Demo.forward) /\
  training (model st1) = false /\
  exists embs st2 new,
    embed_dataset Demo.batch_encode_plus Demo.forward seqs 0 (-1) st1
    = Ok (embs, st2) /\
    model st2 = model st1 /\
    parameters (model st2) = 10%nat /\
    grad_enabled st2 = true /\
    forward_calls st2 = forward_calls st1 ++ new /\
    List.length new = 2%nat /\
    Forall (fun c => call_grad_enabled c = false /\ call_training c = false) new.
Proof.
  intros st0 seqs st1.
  pose proof (extraction_leaves_encoder_frozen (float64 := Z)
                Demo.batch_encode_plus Demo.forward
                demo_tokenizer_keeps_batch demo_encoder_keeps_shape
                (select_device true) st0 seqs 0 (-1)
                {| training_sequences := []; training_labels := [];
                   validation_sequences := []; validation_labels := [];
                   test_sequences := []; test_labels := [] |})
    as (Heval & _ & Hrun & _).
  split.
  - split; [exact demo_tokenizer_keeps_batch | exact demo_encoder_keeps_shape].
  - split; [exact Heval | exact Hrun].
Defined.

Lemma adapter_indexed_access_witness :
  let ds := __init__ [[[1; 2]; [3; 4]]; [[5; 6]]] [10; 20] in
  (len (sequences ds) = len (labels ds) /\
   fst (__len__ ds) = Ok 2 /\
   0 <= 1 < 2) /\
  exists sample l,
    nth_error (sequences ds) 1 = Some sample /\
    nth_error (labels ds) 1 = Some l /\
    __getitem__ Z.succ 1 ds
    = (Ok {| item_embed := sample;
             item_labels := {| tensor_dtype := torch_float32; shape := [1];
                               elements := [Z.succ l] |} |}, ds).
Proof.
  intros ds.
  assert (Hal : len (sequences ds) = len (labels ds)) by reflexivity.
  assert (Hlen : fst (__len__ ds) = Ok 2) by reflexivity.
  assert (Hidx : 0 <= 1 < 2) by lia.
  split; [split; [exact Hal | split; [exact Hlen | exact Hidx]] |].
  exact (proj1 (adapter_indexed_access (row := list Z) Z.succ)
           ds 1 2 Hal Hlen Hidx).
Defined.

Lemma getitem_label_shape_witness :
  let ds := __init__ [[[1; 2]; [3; 4]]; [[5; 6]]] [10; 20] in
  (- len (labels ds) <= -1 < len (labels ds) /\
   - len (sequences ds) <= -1 < len (sequences ds)) /\
  exists sample l,
    getitem (sequences ds) (-1) = Ok sample /\
    getitem (labels ds) (-1) = Ok l /\
    fst (__getitem__ Z.succ (-1) ds)
    = Ok {| item_embed := sample;
            item_labels := {| tensor_dtype := torch_float32; shape := [1];
                              elements := [Z.succ l] |} |}.
Proof.
  intros ds.
  assert (Hl : - len (labels ds) <= -1 < len (labels ds)) by (cbn; lia).
  assert (Hs : - len (sequences ds) <= -1 < len (sequences ds)) by (cbn; lia).
  split; [split; assumption |].
  exact (proj1 (getitem_label_shape (row := list Z) Z.succ) ds (-1) Hl Hs).
Defined.

(** ** The code on small inputs *)

Example truncate_long : truncate (Str "MKVLA") 3 = ["M"; "K"; "V"]%string.
Proof. reflexivity. Qed.

Example truncate_list : truncate (Lst ["M"; "K"; "V"]%string) 2 = ["M"; "K"]%string.
Proof. reflexivity. Qed.

Example default_bound_first_longest :
  max_by seq_len [Str "MK"; Str "MKV"; Str "AAA"] = Ok (Str "MKV").
Proof. reflexivity. Qed.

Example preprocess_without_training_raises :
  preprocess_dataset [] [Str "MK"] [10] None = Raise ValueError.
Proof. reflexivity. Qed.

Example embed_two_samples :
  embed_dataset Demo.batch_encode_plus Demo.forward
    [Lst ["M"; "K"]%string; Lst ["M"]%string] 0 (-1)
    {| model := {| parameters := 10%nat; training := false; on_device := cuda0 |};
       grad_enabled := true; forward_calls := [] |}
  = Ok ([[[3; 13]; [3; 13]]; [[3; 13]]]%nat,
        {| model := {| parameters := 10%nat; training := false; on_device := cuda0 |};
           grad_enabled := true;
           forward_calls :=
             [ {| call_input_ids := [[3; 3; 1]]%nat; call_training := false;
                  call_grad_enabled := false |};
               {| call_input_ids := [[3; 1]]%nat; call_training := false;
                  call_grad_enabled := false |} ] |}).
Proof. reflexivity. Qed.

Example len_counts_labels :
  fst (__len__ (__init__ [[[1]]; [[2]]; [[3]]] [10])) = Ok 1.
Proof. reflexivity. Qed.

Example getitem_past_embeddings_raises :
  fst (__getitem__ Z.succ 0 (__init__ (@nil (list (list Z))) [10]))
  = Raise IndexError.
Proof. reflexivity. Qed.

Example unsqueeze_out_of_range :
  unsqueeze (tensor_of_float Z.succ 10) 2 = Raise IndexError.
Proof. reflexivity. Qed.

(** ** The further properties at concrete inputs *)

Lemma preprocess_dataset_twice_witness :
  (0 <= 4 /\ 0 <= 2) /\
  exists out,
    preprocess_dataset [] [Str "MKVLA"; Str "M"] [10; 20] (Some 4)
    = Ok (out, [10; 20]) /\
    preprocess_dataset [] (map Lst out) [10; 20] (Some 2)
    = preprocess_dataset [] [Str "MKVLA"; Str "M"] [10; 20] (Some (Z.min 4 2)) /\
    preprocess_dataset [] (map Lst out) [10; 20] (Some 4) = Ok (out, [10; 20]).
Proof.
  assert (H4 : 0 <= 4) by lia. assert (H2 : 0 <= 2) by lia.
  split; [split; assumption |].
  exact (preprocess_dataset_twice [] [] [Str "MKVLA"; Str "M"] [10; 20] 4 2 H4 H2).
Defined.

Lemma preprocess_cell_rerun_witness :
  let g := {| training_sequences := [Str "MKV"; Str "MKVLA"];
              training_labels := [10; 20];
              validation_sequences := [Str "MKVLAGG"];
              validation_labels := [30];
              test_sequences := [Str "M"];
              test_labels := [40] |} in
  training_sequences g <> [] /\
  exists g', preprocess_cell g = Ok g' /\ preprocess_cell g' = Ok g'.
Proof.
  intros g.
  assert (Hne : training_sequences g <> []) by discriminate.
  split; [exact Hne | exact (preprocess_cell_rerun g Hne)].
Defined.

Lemma default_bound_keeps_training_witness :
  let g := {| training_sequences := [Str "MKV"; Str "MKVLA"];
              training_labels := [10; 20];
              validation_sequences := [Str "MKVLAGG"];
              validation_labels := [30];
              test_sequences := [Str "M"];
              test_labels := [40] |} in
  training_sequences g <> [] /\
  exists g',
    preprocess_cell g = Ok g' /\
    training_sequences g'
    = [Lst ["M"; "K"; "V"]%string; Lst ["M"; "K"; "V"; "L"; "A"]%string].
Proof.
  intros g.
  assert (Hne : training_sequences g <> []) by discriminate.
  split; [exact Hne | exact (proj2 (default_bound_keeps_training g Hne))].
Defined.

Lemma embedding_depends_on_sample_only_witness :
  let st := {| model := {| parameters := 10%nat; training := false;
                           on_device := cpu |};
               grad_enabled := true;
               forward_calls := [] |} in
  let seqs := [Lst ["M"; "K"; "V"]%string; Lst ["M"]%string] in
  (tokenizer_keeps_batch Demo.batch_encode_plus /\
   encoder_keeps_shape Demo.forward /\
   nth_error seqs 1 = Some (Lst ["M"]%string) /\
   model st = model st) /\
  exists embs e alone',
    embed_dataset Demo.batch_encode_plus Demo.forward seqs 0 (-1) st
    = Ok (embs, alone') /\
    nth_error embs 1 = Some e /\
    exists st1,
      embed_dataset Demo.batch_encode_plus Demo.forward [Lst ["M"]%string]
        0 (-1) st = Ok ([e], st1).
Proof.
  intros st seqs.
  assert (Hnth : nth_error seqs 1 = Some (Lst ["M"]%string)) by reflexivity.
  assert (Hm : model st = model st) by reflexivity.
  split.
  - repeat split; [exact demo_tokenizer_keeps_batch
                  | exact demo_encoder_keeps_shape].
  - destruct (embedding_depends_on_sample_only Demo.batch_encode_plus
                Demo.forward demo_tokenizer_keeps_batch
                demo_encoder_keeps_shape seqs 0 (-1) st)
      as (embs & st' & Hrun & _ & Hone).
    destruct (Hone 1%nat (Lst ["M"]%string) st Hnth Hm) as (e & st1 & Halone & He).
    exists embs, e, st'. split; [exact Hrun |]. split; [exact He |].
    exists st1. exact Halone.
Defined.

Lemma shift_right_zero_keeps_nothing_witness :
  let st := {| model := {| parameters := 10%nat; training := false;
                           on_device := cpu |};
               grad_enabled := true;
               forward_calls := [] |} in
  let seqs := [Lst ["M"; "K"; "V"]%string; Lst ["M"]%string] in
  (tokenizer_keeps_batch Demo.batch_encode_plus /\
   encoder_keeps_shape Demo.forward) /\
  exists st',
    embed_dataset Demo.batch_encode_plus Demo.forward seqs 0 0 st
    = Ok (map (fun _ => []) seqs, st').
Proof.
  intros st seqs. split.
  - split; [exact demo_tokenizer_keeps_batch | exact demo_encoder_keeps_shape].
  - exact (shift_right_zero_keeps_nothing Demo.batch_encode_plus Demo.forward
             demo_tokenizer_keeps_batch demo_encoder_keeps_shape seqs 0 st).
Defined.

Lemma window_row_count_witness :
  let st := {| model := {| parameters := 10%nat; training := false;
                           on_device := cpu |};
               grad_enabled := true;
               forward_calls := [] |} in
  let wss := [["M"; "K"; "V"; "L"]; ["M"]]%string in
  (tokenizer_keeps_batch Demo.batch_encode_plus /\
   encoder_keeps_shape Demo.forward /\
   tokenizer_appends_eos Demo.batch_encode_plus Demo.residue /\
   0 <= 1 /\ -2 < 0 /\
   Forall (Forall Demo.residue) wss) /\
  exists embs st',
    embed_dataset Demo.batch_encode_plus Demo.forward (map Lst wss) 1 (-2) st
    = Ok (embs, st') /\
    map len embs = [2; 0].
Proof.
  intros st wss.
  assert (Hl : 0 <= 1) by lia. assert (Hr : -2 < 0) by lia.
  assert (Hres : Forall (Forall Demo.residue) wss) by repeat constructor.
  split.
  - exact (conj demo_tokenizer_keeps_batch
             (conj demo_encoder_keeps_shape
                (conj demo_tokenizer_appends_eos
                   (conj Hl (conj Hr Hres))))).
  - exact (window_row_count Demo.batch_encode_plus Demo.forward
             demo_tokenizer_keeps_batch demo_encoder_keeps_shape
             Demo.residue demo_tokenizer_appends_eos wss 1 (-2) st Hl Hr Hres).
Defined.

Lemma default_window_drops_last_row_witness :
  let st := {| model := {| parameters := 10%nat; training := false;
                           on_device := cpu |};
               grad_enabled := true;
               forward_calls := [] |} in
  let wss := [["M"; "K"]]%string in
  (tokenizer_keeps_batch Demo.batch_encode_plus /\
   encoder_keeps_shape Demo.forward /\
   tokenizer_appends_eos Demo.batch_encode_plus Demo.residue /\
   Forall (Forall Demo.residue) wss) /\
  exists embs st',
    embed_dataset Demo.batch_encode_plus Demo.forward (map Lst wss) 0 (-1) st
    = Ok (embs, st') /\
    Forall2 (fun ws emb =>
               List.length emb = List.length ws /\
               exists eos_row,
                 Demo.forward 10%nat false (Demo.batch_encode_plus [Lst ws])
                 = [emb ++ [eos_row]])
            wss embs.
Proof.
  intros st wss.
  assert (Hres : Forall (Forall Demo.residue) wss) by repeat constructor.
  split.
  - repeat split; [exact demo_tokenizer_keeps_batch
                  | exact demo_encoder_keeps_shape
                  | exact demo_tokenizer_appends_eos
                  | exact Hres].
  - exact (default_window_drops_last_row Demo.batch_encode_plus Demo.forward
             demo_tokenizer_keeps_batch demo_encoder_keeps_shape
             Demo.residue demo_tokenizer_appends_eos wss st Hres).
Defined.

Lemma getitem_from_the_end_witness :
  let ds := __init__ [[[1; 2]; [3; 4]]; [[5; 6]]] [10; 20] in
  (len (sequences ds) = len (labels ds) /\ - len (labels ds) <= -1 < 0) /\
  __getitem__ Z.succ (-1) ds = __getitem__ Z.succ (-1 + len (labels ds)) ds /\
  exists it, fst (__getitem__ Z.succ (-1) ds) = Ok it.
Proof.
  intros ds.
  assert (Hal : len (sequences ds) = len (labels ds)) by reflexivity.
  assert (Hidx : - len (labels ds) <= -1 < 0) by (cbn; lia).
  split; [split; assumption |].
  exact (getitem_from_the_end (row := list Z) Z.succ ds (-1) Hal Hidx).
Defined.

Lemma notebook_leaves_model_frozen_witness :
  let st := {| model := {| parameters := 10%nat; training := true;
                           on_device := cpu |};
               grad_enabled := true;
               forward_calls := [] |} in
  let dataset :=
    {| train := [ {| primary := "MKV"; log_fluorescence := 10 |};
                  {| primary := "MKVLA"; log_fluorescence := 20 |} ];
       validation := [ {| primary := "MKVLAGG"; log_fluorescence := 30 |} ];
       test := [ {| primary := "M"; log_fluorescence := 40 |} ] |} in
  (tokenizer_keeps_batch Demo.batch_encode_plus /\
   encoder_keeps_shape Demo.forward /\
   train dataset <> []) /\
  exists d st',
    notebook_datasets Demo.batch_encode_plus Demo.forward true dataset st
    = Ok (d, st') /\
    get_num_params Demo.parameter_shapes (model st') = 21 /\
    training (model st') = false /\
    on_device (model st') = cuda0 /\
    grad_enabled st' = true /\
    len (forward_calls st') = 4.
Proof.
  intros st dataset.
  assert (Hne : train dataset <> []) by discriminate.
  split.
  - exact (conj demo_tokenizer_keeps_batch
             (conj demo_encoder_keeps_shape Hne)).
  - exact (notebook_leaves_model_frozen Demo.batch_encode_plus Demo.forward
             Demo.parameter_shapes demo_tokenizer_keeps_batch
             demo_encoder_keeps_shape true dataset st Hne).
Defined.

Lemma test_split_does_not_reach_trainer_witness :
  let st := {| model := {| parameters := 10%nat; training := true;
                           on_device := cpu |};
               grad_enabled := true;
               forward_calls := [] |} in
  let rows := [ {| primary := "MKV"; log_fluorescence := 10 |};
                {| primary := "MKVLA"; log_fluorescence := 20 |} ] in
  let held := [ {| primary := "MKVLAGG"; log_fluorescence := 30 |} ] in
  let dataset1 :=
    {| train := rows; validation := held;
       test := [ {| primary := "M"; log_fluorescence := 40 |} ] |} in
  let dataset2 :=
    {| train := rows; validation := held;
       test := [ {| primary := "AAAAAAAAA"; log_fluorescence := 50 |};
                 {| primary := "MK"; log_fluorescence := 60 |} ] |} in
  (tokenizer_keeps_batch Demo.batch_encode_plus /\
   encoder_keeps_shape Demo.forward /\
   train dataset1 = train dataset2 /\
   validation dataset1 = validation dataset2 /\
   train dataset1 <> []) /\
  exists d1 d2 st1 st2,
    notebook_datasets Demo.batch_encode_plus Demo.forward false dataset1 st
    = Ok (d1, st1) /\
    notebook_datasets Demo.batch_encode_plus Demo.forward false dataset2 st
    = Ok (d2, st2) /\
    train_dataset (trainer (fun _ _ : list Z => 0) d1)
    = train_dataset (trainer (fun _ _ : list Z => 0) d2) /\
    eval_dataset (trainer (fun _ _ : list Z => 0) d1)
    = eval_dataset (trainer (fun _ _ : list Z => 0) d2) /\
    args (trainer (fun _ _ : list Z => 0) d1)
    = args (trainer (fun _ _ : list Z => 0) d2).
Proof.
  intros st rows held dataset1 dataset2.
  assert (Ht : train dataset1 = train dataset2) by reflexivity.
  assert (Hv : validation dataset1 = validation dataset2) by reflexivity.
  assert (Hne : train dataset1 <> []) by discriminate.
  split.
  - exact (conj demo_tokenizer_keeps_batch
             (conj demo_encoder_keeps_shape (conj Ht (conj Hv Hne)))).
  - exact (test_split_does_not_reach_trainer Demo.batch_encode_plus
             Demo.forward (fun _ _ : list Z => 0)
             demo_tokenizer_keeps_batch demo_encoder_keeps_shape
             false dataset1 dataset2 st Ht Hv Hne).
Defined.

Lemma trainer_items_match_rows_witness :
  let st := {| model := {| parameters := 10%nat; training := true;
                           on_device := cpu |};
               grad_enabled := true;
               forward_calls := [] |} in
  let held := {| primary := "MKVLAGG"; log_fluorescence := 30 |} in
  let dataset :=
    {| train := [ {| primary := "MKV"; log_fluorescence := 10 |};
                  {| primary := "MKVLA"; log_fluorescence := 20 |} ];
       validation := [held];
       test := [ {| primary := "M"; log_fluorescence := 40 |} ] |} in
  (tokenizer_keeps_batch Demo.batch_encode_plus /\
   encoder_keeps_shape Demo.forward /\
   tokenizer_appends_eos Demo.batch_encode_plus Demo.residue /\
   train dataset <> [] /\
   nth_error (validation dataset) 0 = Some held /\
   Forall Demo.residue (chars (primary held))) /\
  exists d st' emb,
    notebook_datasets Demo.batch_encode_plus Demo.forward true dataset st
    = Ok (d, st') /\
    fst (__getitem__ Z.succ 0 (eval_dataset (trainer (fun _ _ : list Z => 0) d)))
    = Ok {| item_embed := emb;
            item_labels := {| tensor_dtype := torch_float32; shape := [1];
                              elements := [31] |} |} /\
    len emb = 5.
Proof.
  intros st held dataset.
  assert (Hne : train dataset <> []) by discriminate.
  assert (Hnth : nth_error (validation dataset) 0 = Some held) by reflexivity.
  assert (Hres : Forall Demo.residue (chars (primary held)))
    by repeat constructor.
  split.
  - exact (conj demo_tokenizer_keeps_batch
             (conj demo_encoder_keeps_shape
                (conj demo_tokenizer_appends_eos
                   (conj Hne (conj Hnth Hres))))).
  - destruct (trainer_items_match_rows Z.succ Demo.batch_encode_plus
                Demo.forward (fun _ _ : list Z => 0)
                demo_tokenizer_keeps_batch demo_encoder_keeps_shape
                Demo.residue demo_tokenizer_appends_eos true dataset st Hne)
      as (d & st' & Hrun & _ & Hval).
    destruct (Hval 0%nat held Hnth Hres) as (emb & Hitem & Hlen).
    exists d, st', emb. split; [exact Hrun |]. split; [exact Hitem | exact Hlen].
Defined.

Lemma negative_bound_counts_from_end_witness :
  -2 < 0 /\ len (truncate (Str "MKVLA") (-2)) = Z.max 0 (seq_len (Str "MKVLA") + -2).
Proof.
  assert (H : -2 < 0) by lia.
  split; [exact H | exact (negative_bound_counts_from_end (Str "MKVLA") (-2) H)].
Defined.
